(** * next-rbac: role inheritance, permission checks and the adapter cache

    A shallow embedding of [src/server/inheritance.ts],
    [src/server/permissions.ts] and [src/adapters/base.ts].

    Conventions of the embedding:
    - a [Promise] that resolves is the value it resolves to; a rejected one is
      [Throw]; store lookups ([findRole], [getUserRole],
      [getRolePermissions]) are total functions, so lookups that reject are
      outside the model;
    - [maxDepth] and [ttl] are JavaScript numbers, embedded as integers;
    - a JavaScript [Set<string>] that is only probed with [has] is a
      [gset string]; the one that is turned into an array keeps its insertion
      order and is a duplicate-free list;
    - the recursive closures are bounded by a fuel argument; the exported
      functions supply enough of it (see [fuelFor]). *)

From Stdlib Require Import ZArith Sorted.
From stdpp Require Import base option list gmap strings pretty.

Local Open Scope Z_scope.

(** ** types.ts *)

Definition Permission := string.
Definition Role := string.

Record RoleDocument := mkRoleDocument {
  name : string;
  permissions : list Permission;
  inherits : option Role
}.

Record RBACAdapter := mkRBACAdapter {
  findRole : Role -> option RoleDocument;
  getUserRole : string -> option Role;
  getRolePermissions : Role -> list Permission
}.

(** JavaScript truthiness of a string: every string but the empty one. *)
Definition truthy (s : string) : bool :=
  match s with
  | EmptyString => false
  | String _ _ => true
  end.

(** ** server/inheritance.ts *)

Record InheritanceOptions := mkInheritanceOptions {
  maxDepth : option Z
}.

(** [options = {}] *)
Definition noOptions : InheritanceOptions := {| maxDepth := None |}.

Inductive Error :=
| DepthExceeded (limit : Z) (role : Role)
    (* Role inheritance depth exceeded <limit> for role: <role> *)
| CircularInheritance (role : Role).
    (* Circular role inheritance detected: <role> *)

Inductive Outcome (A : Type) :=
| Return (a : A)
| Throw (e : Error)
| OutOfFuel.
Arguments Return {A} a.
Arguments Throw {A} e.
Arguments OutOfFuel {A}.

(** [const { maxDepth = 10 } = options] *)
Definition maxDepthOf (options : InheritanceOptions) : Z :=
  default 10 (maxDepth options).

(** A traversal at depth [0] makes at most [maxDepth + 2] calls: depths
    [0 .. maxDepth] pass the guard and depth [maxDepth + 1] throws. *)
Definition fuelFor (limit : Z) : nat := S (Z.to_nat (limit + 1)).

(** [allPermissions.add(perm)] on an insertion-ordered [Set]. *)
Definition Set_add (acc : list Permission) (perm : Permission) : list Permission :=
  if bool_decide (perm ∈ acc) then acc else acc ++ [perm].

Module Resolve.

Record State := mkState {
  visited : gset string;
  allPermissions : list Permission
}.

Section Closure.
Variable adapter : RBACAdapter.
Variable limit : Z.

Fixpoint traverse (fuel : nat) (st : State) (currentRole : Role) (depth : Z)
  : Outcome State :=
  match fuel with
  | O => OutOfFuel
  | S fuel =>
    if depth >? limit then Throw (DepthExceeded limit currentRole)
    else if bool_decide (currentRole ∈ visited st)
    then Throw (CircularInheritance currentRole)
    else
      let st := {| visited := {[ currentRole ]} ∪ visited st;
                   allPermissions := allPermissions st |} in
      match findRole adapter currentRole with
      | None => Return st
      | Some role =>
        let st := {| visited := visited st;
                     allPermissions :=
                       foldl Set_add (allPermissions st) (permissions role) |} in
        match inherits role with
        | Some parent =>
          if truthy parent then traverse fuel st parent (depth + 1)
          else Return st
        | None => Return st
        end
      end
  end.
End Closure.

End Resolve.

Definition resolveRolePermissions (adapter : RBACAdapter) (roleName : Role)
    (options : InheritanceOptions) : Outcome (list Permission) :=
  let limit := maxDepthOf options in
  match Resolve.traverse adapter limit (fuelFor limit)
          {| Resolve.visited := ∅; Resolve.allPermissions := [] |} roleName 0 with
  | Return st => Return (Resolve.allPermissions st)
  | Throw e => Throw e
  | OutOfFuel => OutOfFuel
  end.

Module Inherits.

Section Closure.
Variable adapter : RBACAdapter.
Variable parentRole : Role.
Variable limit : Z.

Fixpoint traverse (fuel : nat) (visited : gset string) (currentRole : Role)
    (depth : Z) : Outcome bool :=
  match fuel with
  | O => OutOfFuel
  | S fuel =>
    if depth >? limit then Return false
    else if bool_decide (currentRole ∈ visited) then Return false
    else
      let visited := {[ currentRole ]} ∪ visited in
      match findRole adapter currentRole with
      | None => Return false
      | Some role =>
        if bool_decide (inherits role = Some parentRole) then Return true
        else
          match inherits role with
          | Some parent =>
            if truthy parent then traverse fuel visited parent (depth + 1)
            else Return false
          | None => Return false
          end
      end
  end.
End Closure.

End Inherits.

Definition inheritsFrom (adapter : RBACAdapter) (roleName parentRole : Role)
    (options : InheritanceOptions) : Outcome bool :=
  let limit := maxDepthOf options in
  Inherits.traverse adapter parentRole limit (fuelFor limit) ∅ roleName 0.

Module Hierarchy.

Record State := mkState {
  visited : gset string;
  hierarchy : list Role
}.

Section Closure.
Variable adapter : RBACAdapter.
Variable limit : Z.

Fixpoint traverse (fuel : nat) (st : State) (currentRole : Role) (depth : Z)
  : Outcome State :=
  match fuel with
  | O => OutOfFuel
  | S fuel =>
    if depth >? limit then Throw (DepthExceeded limit currentRole)
    else if bool_decide (currentRole ∈ visited st)
    then Throw (CircularInheritance currentRole)
    else
      let st := {| visited := {[ currentRole ]} ∪ visited st;
                   hierarchy := hierarchy st ++ [currentRole] |} in
      match findRole adapter currentRole with
      | Some {| inherits := Some parent |} =>
        if truthy parent then traverse fuel st parent (depth + 1)
        else Return st
      | _ => Return st
      end
  end.
End Closure.

End Hierarchy.

Definition getRoleHierarchy (adapter : RBACAdapter) (roleName : Role)
    (options : InheritanceOptions) : Outcome (list Role) :=
  let limit := maxDepthOf options in
  match Hierarchy.traverse adapter limit (fuelFor limit)
          {| Hierarchy.visited := ∅; Hierarchy.hierarchy := [] |} roleName 0 with
  | Return st => Return (Hierarchy.hierarchy st)
  | Throw e => Throw e
  | OutOfFuel => OutOfFuel
  end.

(** ** server/permissions.ts *)

Module Permissions.

Definition getRolePermissions (role : Role) (adapter : RBACAdapter)
  : list Permission :=
  getRolePermissions adapter role.

(** [permissions.includes(permission)] *)
Definition includes (l : list string) (x : string) : bool :=
  bool_decide (x ∈ l).

Definition hasPermission (userId : string) (permission : Permission)
    (adapter : RBACAdapter) : bool :=
  match getUserRole adapter userId with
  | None => false
  | Some role =>
    if negb (truthy role) then false
    else
      let permissions := getRolePermissions role adapter in
      includes permissions permission
  end.

Definition hasAnyPermission (userId : string) (permissions : list Permission)
    (adapter : RBACAdapter) : bool :=
  match getUserRole adapter userId with
  | None => false
  | Some role =>
    if negb (truthy role) then false
    else
      let userPermissions := getRolePermissions role adapter in
      existsb (fun p => includes userPermissions p) permissions
  end.

Definition hasAllPermissions (userId : string) (permissions : list Permission)
    (adapter : RBACAdapter) : bool :=
  match getUserRole adapter userId with
  | None => false
  | Some role =>
    if negb (truthy role) then false
    else
      let userPermissions := getRolePermissions role adapter in
      forallb (fun p => includes userPermissions p) permissions
  end.

Definition hasRole (userId : string) (role : Role) (adapter : RBACAdapter) : bool :=
  let userRole := getUserRole adapter userId in
  bool_decide (userRole = Some role).

Definition hasAnyRole (userId : string) (roles : list Role) (adapter : RBACAdapter)
  : bool :=
  match getUserRole adapter userId with
  | Some userRole => if truthy userRole then includes roles userRole else false
  | None => false
  end.

(** What awaiting a [require*] function gives: it resolves to nothing, or it
    rejects with [new Error(message)]. *)
Inductive Required :=
| Granted
| Denied (message : string).

(** [permissions.join(', ')] *)
Definition join (l : list string) : string := String.concat ", " l.

Definition requirePermission (userId : string) (permission : Permission)
    (adapter : RBACAdapter) : Required :=
  let hasPerms := hasPermission userId permission adapter in
  if negb hasPerms then Denied ("Permission denied: " +:+ permission)
  else Granted.

Definition requireRole (userId : string) (role : Role) (adapter : RBACAdapter)
  : Required :=
  let hasRoleCheck := hasRole userId role adapter in
  if negb hasRoleCheck then Denied ("Role required: " +:+ role)
  else Granted.

Definition requireAnyPermission (userId : string) (permissions : list Permission)
    (adapter : RBACAdapter) : Required :=
  let hasPerms := hasAnyPermission userId permissions adapter in
  if negb hasPerms
  then Denied ("Permission denied: requires one of " +:+ join permissions)
  else Granted.

Definition requireAllPermissions (userId : string) (permissions : list Permission)
    (adapter : RBACAdapter) : Required :=
  let hasPerms := hasAllPermissions userId permissions adapter in
  if negb hasPerms
  then Denied ("Permission denied: requires all of " +:+ join permissions)
  else Granted.

End Permissions.

(** ** adapters/base.ts *)

Record CacheConfig := mkCacheConfig {
  enabled : option bool;
  ttl : option Z (* seconds *)
}.

Record CacheEntry (T : Type) := mkCacheEntry {
  data : T;
  expires : Z
}.
Arguments mkCacheEntry {T} data expires.
Arguments data {T} c.
Arguments expires {T} c.

Record BaseAdapter (T : Type) := mkBaseAdapter {
  cache : option (gmap string (CacheEntry T));
  cacheConfig : CacheConfig
}.
Arguments mkBaseAdapter {T} cache cacheConfig.
Arguments cache {T} b.
Arguments cacheConfig {T} b.

(** [constructor(cacheConfig: CacheConfig = {})] *)
Definition newBaseAdapter (T : Type) (config : CacheConfig) : BaseAdapter T :=
  {| cache := match enabled config with
              | Some true => Some ∅
              | _ => None
              end;
     cacheConfig := config |}.

(** [this.cacheConfig.ttl || 300] *)
Definition ttlOf (config : CacheConfig) : Z :=
  match ttl config with
  | Some t => if t =? 0 then 300 else t
  | None => 300
  end.

(** What awaiting [fetcher()] gives. *)
Inductive Fetched (T : Type) :=
| Resolved (value : T)
| Rejected (reason : string).
Arguments Resolved {T} value.
Arguments Rejected {T} reason.

Section Cache.
(** The world outside the adapter: the fetcher acts on it, and [Date.now()]
    reads the clock from it (milliseconds). *)
Context {T W : Type}.
Variable Date_now : W -> Z.

Definition withCache (self : BaseAdapter T) (key : string)
    (fetcher : W -> Fetched T * W) (w : W) : Fetched T * BaseAdapter T * W :=
  match cache self with
  | None => let '(r, w) := fetcher w in (r, self, w)
  | Some entries =>
    let miss :=
      let '(r, w) := fetcher w in
      match r with
      | Rejected e => (Rejected e, self, w)
      | Resolved d =>
        let ttl := ttlOf (cacheConfig self) in
        (Resolved d,
         {| cache := Some (<[ key := {| data := d;
                                        expires := Date_now w + ttl * 1000 |} ]> entries);
            cacheConfig := cacheConfig self |},
         w)
      end in
    match entries !! key with
    | Some cached =>
      if expires cached >? Date_now w then (Resolved (data cached), self, w)
      else miss
    | None => miss
    end
  end.

Definition clearCache (key : option string) (self : BaseAdapter T) : BaseAdapter T :=
  match cache self with
  | None => self
  | Some entries =>
    match key with
    | Some (String a k) =>
      {| cache := Some (delete (String a k) entries); cacheConfig := cacheConfig self |}
    | _ => {| cache := Some ∅; cacheConfig := cacheConfig self |}
    end
  end.
End Cache.

(** ** Stores of the test suite *)

(** [findRole: roleName => Promise.resolve(roles.get(roleName) || null)] *)
Definition mockAdapter (roles : gmap string RoleDocument) : RBACAdapter :=
  {| findRole := fun roleName => roles !! roleName;
     getUserRole := fun _ => None;
     getRolePermissions := fun _ => [] |}.

Definition role (n : string) (ps : list Permission) (parent : option Role)
  : string * RoleDocument :=
  (n, {| name := n; permissions := ps; inherits := parent |}).

(** super-admin -> admin -> manager -> user *)
Definition roles : gmap string RoleDocument :=
  list_to_map
    [ role "user" ["users.read"; "profile.read"] None;
      role "manager" ["users.update"; "reports.read"] (Some "user");
      role "admin" ["users.delete"; "settings.read"] (Some "manager");
      role "super-admin" ["system.admin"] (Some "admin") ].

Definition circularRoles : gmap string RoleDocument :=
  list_to_map
    [ role "role-a" ["perm-a"] (Some "role-b");
      role "role-b" ["perm-b"] (Some "role-a") ].

Definition selfParentRoles : gmap string RoleDocument :=
  list_to_map [ role "loop" ["perm"] (Some "loop") ].

(** [for (let i = 0; i < n; i++) roles.set(`level-${i}`, ...)] *)
Definition level (i : nat) : string := "level-" +:+ pretty i.
Definition perm (i : nat) : string := "perm-" +:+ pretty i.

Definition levelRoles (n : nat) : gmap string RoleDocument :=
  list_to_map
    ((fun i => role (level i) [perm i]
                 (match i with O => None | S j => Some (level j) end)) <$> seq 0 n).

(** ** The parent relation the traversals follow *)

(** The role a traversal moves to from [r]: the [inherits] field of [r]'s
    record when the record exists and the field is a truthy string. *)
Definition parentOf (adapter : RBACAdapter) (r : Role) : option Role :=
  match findRole adapter r with
  | Some {| inherits := Some parent |} => if truthy parent then Some parent else None
  | _ => None
  end.

(** [ancestor adapter k r]: the role [k] parent edges above [r]. *)
Fixpoint ancestor (adapter : RBACAdapter) (k : nat) (r : Role) : option Role :=
  match k with
  | O => Some r
  | S k =>
    match parentOf adapter r with
    | Some p => ancestor adapter k p
    | None => None
    end
  end.

(** The ancestor chain of [r] reaches a role without parent after exactly
    [n] edges. A chain that ends cannot revisit a role ([ChainEnds_NoDup]). *)
Inductive ChainEnds (adapter : RBACAdapter) : Role -> nat -> Prop :=
| ChainEnds_root r :
    parentOf adapter r = None -> ChainEnds adapter r 0
| ChainEnds_step r p n :
    parentOf adapter r = Some p -> ChainEnds adapter p n ->
    ChainEnds adapter r (S n).

(** The first [n + 1] roles of the chain, child first. *)
Fixpoint chainOf (adapter : RBACAdapter) (n : nat) (r : Role) : list Role :=
  r :: match n with
       | O => []
       | S n =>
         match parentOf adapter r with
         | Some p => chainOf adapter n p
         | None => []
         end
       end.

(** [adapter.findRole(r).permissions], and nothing when [findRole(r)] is null. *)
Definition directPermissions (adapter : RBACAdapter) (r : Role) : list Permission :=
  match findRole adapter r with
  | Some role => permissions role
  | None => []
  end.

(** [role.permissions.forEach((perm) => allPermissions.add(perm))] *)
Definition addRole (adapter : RBACAdapter) (acc : list Permission) (r : Role)
  : list Permission :=
  foldl Set_add acc (directPermissions adapter r).

(** Some record carries [parentRole] in its [inherits] field. *)
Definition namesParent (adapter : RBACAdapter) (parentRole : Role) (r : Role) : bool :=
  match findRole adapter r with
  | Some role => bool_decide (inherits role = Some parentRole)
  | None => false
  end.

(** Some role at most [limit] parent edges above [r] ([r] itself included)
    names [parentRole] in its [inherits] field. *)
Definition namedWithin (adapter : RBACAdapter) (limit : Z) (parentRole r : Role) : Prop :=
  exists (k : nat) (x : Role),
    Z.of_nat k <= limit /\ ancestor adapter k r = Some x /\
    namesParent adapter parentRole x = true.

(** The traversal from [r] needs more than [limit] edges: the first
    [limit + 1] roles of the chain are pairwise distinct and the last of them
    still has a parent (or the limit is negative, and depth 0 is too deep). *)
Definition needsMoreThan (adapter : RBACAdapter) (limit : Z) (r : Role) : Prop :=
  limit < 0 \/
  (NoDup (chainOf adapter (Z.to_nat limit) r) /\
   is_Some (ancestor adapter (S (Z.to_nat limit)) r)).

(** A fetcher that resolves to [v], takes [elapsed] milliseconds and counts
    its invocations; the world is the clock and the counter. *)
Definition countingFetcher {T : Type} (v : T) (elapsed : Z) (w : Z * nat)
  : Fetched T * (Z * nat) :=
  (Resolved v, (w.1 + elapsed, S w.2)).

(** [Date.now()] in that world. *)
Definition clockOf (w : Z * nat) : Z := w.1.

(** The call [call] ran [fetcher] in world [w]: it hands back what the
    fetcher gave and leaves the world as the fetcher left it. *)
Definition invokes {T W : Type} (call : Fetched T * BaseAdapter T * W)
    (fetcher : W -> Fetched T * W) (w : W) : Prop :=
  call.1.1 = (fetcher w).1 /\ call.2 = (fetcher w).2.

(** ** adapters/memory.ts *)

Module Memory.

(** A role as the adapter stores it: the document with its bookkeeping
    fields. No method of the class writes an [inherits] field. *)
Record StoredRole := mkStoredRole {
  _id : string;
  name : string;
  permissions : list Permission;
  created_at : Z;
  updated_at : Z;
  deleted_at : option Z
}.

Record User := mkUser {
  id : string;
  role : string
}.

Record MemoryAdapterConfig := mkConfig {
  config_roles : option (list (string * list Permission));
  config_users : option (list User)
}.

(** [super()] leaves the cache of the base class undefined, and no method
    below goes through it: the state is the two maps. *)
Record InMemoryAdapter := mkAdapter {
  roles : gmap string StoredRole;
  users : gmap string User
}.

(** The object literal both the constructor and [setRole] store; [now] is
    what [new Date()] gives. *)
Definition stored (now : Z) (name : string) (permissions : list Permission)
  : StoredRole :=
  {| _id := name; name := name; permissions := permissions;
     created_at := now; updated_at := now; deleted_at := None |}.

(** The stored object seen as a [RoleDocument]. *)
Definition document (r : StoredRole) : RoleDocument :=
  mkRoleDocument (name r) (permissions r) None.

Definition new (now : Z) (config : MemoryAdapterConfig) : InMemoryAdapter :=
  {| roles :=
       match config_roles config with
       | Some l => foldl (fun m r => <[ r.1 := stored now r.1 r.2 ]> m) ∅ l
       | None => ∅
       end;
     users :=
       match config_users config with
       | Some l => foldl (fun m u => <[ id u := u ]> m) ∅ l
       | None => ∅
       end |}.

Definition findRole (self : InMemoryAdapter) (roleName : Role) : option RoleDocument :=
  document <$> roles self !! roleName.

Definition getUserRole (self : InMemoryAdapter) (userId : string) : option Role :=
  match users self !! userId with
  | Some user => Some (role user)
  | None => None
  end.

Definition getRolePermissions (self : InMemoryAdapter) (roleName : Role)
  : list Permission :=
  match roles self !! roleName with
  | Some role => permissions role
  | None => []
  end.

Definition setRole (now : Z) (name : string) (permissions : list Permission)
    (self : InMemoryAdapter) : InMemoryAdapter :=
  {| roles := <[ name := stored now name permissions ]> (roles self);
     users := users self |}.

Definition setUser (id : string) (role : string) (self : InMemoryAdapter)
  : InMemoryAdapter :=
  {| roles := roles self;
     users := <[ id := {| id := id; role := role |} ]> (users self) |}.

Definition deleteRole (name : string) (self : InMemoryAdapter) : InMemoryAdapter :=
  {| roles := delete name (roles self); users := users self |}.

Definition deleteUser (id : string) (self : InMemoryAdapter) : InMemoryAdapter :=
  {| roles := roles self; users := delete id (users self) |}.

Definition clear (self : InMemoryAdapter) : InMemoryAdapter :=
  {| roles := ∅; users := ∅ |}.

(** The instance as the [RBACAdapter] the server functions take. *)
Definition adapter (self : InMemoryAdapter) : RBACAdapter :=
  mkRBACAdapter (findRole self) (getUserRole self) (getRolePermissions self).

End Memory.

(** The adapter of the memory test suite ([beforeEach]). *)
Definition testMemory : Memory.InMemoryAdapter :=
  Memory.new 1700000000000
    {| Memory.config_roles :=
         Some [ ("admin", ["users.create"; "users.read"; "users.update"; "users.delete"]);
                ("user", ["users.read"]) ];
       Memory.config_users :=
         Some [ {| Memory.id := "1"; Memory.role := "admin" |};
                {| Memory.id := "2"; Memory.role := "user" |} ] |}.

(** ** adapters/mongodb.ts *)

Module MongoDB.

(** [getRolePermissions] of the MongoDB adapter. [findRole] is
    [this.findRole], the query on the roles collection. The method calls
    itself on [role.inherits] without a visited set or a depth limit, so the
    embedding is by fuel and [OutOfFuel] for every fuel is a call that does
    not return. *)
Fixpoint getRolePermissions (findRole : Role -> option RoleDocument) (fuel : nat)
    (roleName : Role) : Outcome (list Permission) :=
  match fuel with
  | O => OutOfFuel
  | S fuel =>
    match findRole roleName with
    | None => Return []
    | Some role =>
      let permissions := foldl Set_add [] (permissions role) in
      match inherits role with
      | Some parent =>
        if truthy parent then
          match getRolePermissions findRole fuel parent with
          | Return inheritedPermissions =>
            Return (foldl Set_add permissions inheritedPermissions)
          | Throw e => Throw e
          | OutOfFuel => OutOfFuel
          end
        else Return permissions
      | None => Return permissions
      end
    end
  end.

End MongoDB.

(** ** server/middleware.ts *)

Module Middleware.

(** [req.url] and [req.nextUrl.pathname]. *)
Record NextRequest := mkRequest {
  url : string;
  pathname : string
}.

(** [NextResponse.next()] and [NextResponse.redirect(new URL(target, base))]. *)
Inductive NextResponse :=
| next
| redirect (target base : string).

Record RBACMiddlewareConfig := mkConfig {
  adapter : RBACAdapter;
  getUserId : NextRequest -> option string;
  unauthorizedUrl : option string;
  forbiddenUrl : option string;
  isPublicRoute : option (string -> bool)
}.

Record RouteProtection := mkProtection {
  permissions : option (list Permission);
  anyPermissions : option (list Permission);
  roles : option (list Role);
  custom : option (NextRequest -> string -> RBACAdapter -> bool)
}.

(** [.sort((a, b) => b.length - a.length)]: a stable sort, longest first. *)
Fixpoint insertByLength (route : string) (sorted : list string) : list string :=
  match sorted with
  | [] => [route]
  | x :: rest =>
    if (String.length x <=? String.length route)%nat then route :: x :: rest
    else x :: insertByLength route rest
  end.

Definition sortByLength (routes : list string) : list string :=
  foldr insertByLength [] routes.

(** [Object.keys(protectedRoutes).sort(...).find((route) =>
    pathname.startsWith(route))]; the record is the list of its entries, in
    the order [Object.keys] lists them. *)
Definition findMatchingRoute (pathname : string)
    (protectedRoutes : list (string * RouteProtection)) : option string :=
  find (fun route => String.prefix route pathname)
       (sortByLength (protectedRoutes.*1)).

(** [protectedRoutes[matchingRoute]] *)
Fixpoint lookupRoute (route : string) (protectedRoutes : list (string * RouteProtection))
  : option RouteProtection :=
  match protectedRoutes with
  | [] => None
  | (key, protection) :: rest =>
    if String.eqb key route then Some protection else lookupRoute route rest
  end.

(** [x || fallback] on an optional string. *)
Definition orElse (x : option string) (fallback : string) : string :=
  match x with
  | Some (String a s) => String a s
  | _ => fallback
  end.

(** A missing or empty list asks for nothing:
    [protection.roles && protection.roles.length > 0]. *)
Definition required (l : option (list string)) : list string := default [] l.

(** The checks of [createRBACMiddleware] once a rule has matched. *)
Definition protect (adapter : RBACAdapter) (getUserId : NextRequest -> option string)
    (unauthorizedUrl forbiddenUrl : string) (req : NextRequest)
    (protection : RouteProtection) : NextResponse :=
  match getUserId req with
  | None => redirect unauthorizedUrl (url req)
  | Some userId =>
    if negb (truthy userId) then redirect unauthorizedUrl (url req)
    else
      match getUserRole adapter userId with
      | None => redirect forbiddenUrl (url req)
      | Some userRole =>
        if negb (truthy userRole) then redirect forbiddenUrl (url req)
        else if match required (roles protection) with
                | [] => false
                | rs => negb (Permissions.includes rs userRole)
                end
        then redirect forbiddenUrl (url req)
        else
          let userPermissions := getRolePermissions adapter userRole in
          if match required (permissions protection) with
             | [] => false
             | ps => negb (forallb (fun p => Permissions.includes userPermissions p) ps)
             end
          then redirect forbiddenUrl (url req)
          else if match required (anyPermissions protection) with
                  | [] => false
                  | ps => negb (existsb (fun p => Permissions.includes userPermissions p) ps)
                  end
          then redirect forbiddenUrl (url req)
          else
            match custom protection with
            | Some check =>
              if negb (check req userId adapter) then redirect forbiddenUrl (url req)
              else next
            | None => next
            end
      end
  end.

Definition createRBACMiddleware (config : RBACMiddlewareConfig) (req : NextRequest)
    (protectedRoutes : list (string * RouteProtection)) : NextResponse :=
  let unauthorizedUrl := default "/login" (unauthorizedUrl config) in
  let forbiddenUrl := default "/forbidden" (forbiddenUrl config) in
  if match isPublicRoute config with
     | Some isPublic => isPublic (pathname req)
     | None => false
     end
  then next
  else
    match findMatchingRoute (pathname req) protectedRoutes with
    | None => next
    | Some matchingRoute =>
      if negb (truthy matchingRoute) then next
      else
        match lookupRoute matchingRoute protectedRoutes with
        | None => next (* not reached: the key was taken from the record *)
        | Some protection =>
          protect (adapter config) (getUserId config) unauthorizedUrl forbiddenUrl
                  req protection
        end
    end.

Definition createRoleMiddleware (config : RBACMiddlewareConfig)
    (allowedRoles : list Role) (req : NextRequest) : NextResponse :=
  match getUserId config req with
  | None => redirect (orElse (unauthorizedUrl config) "/login") (url req)
  | Some userId =>
    if negb (truthy userId)
    then redirect (orElse (unauthorizedUrl config) "/login") (url req)
    else
      match getUserRole (adapter config) userId with
      | None => redirect (orElse (forbiddenUrl config) "/forbidden") (url req)
      | Some userRole =>
        if negb (truthy userRole) || negb (Permissions.includes allowedRoles userRole)
        then redirect (orElse (forbiddenUrl config) "/forbidden") (url req)
        else next
      end
  end.

Definition createPermissionMiddleware (config : RBACMiddlewareConfig)
    (requiredPermissions : list Permission) (req : NextRequest) : NextResponse :=
  match getUserId config req with
  | None => redirect (orElse (unauthorizedUrl config) "/login") (url req)
  | Some userId =>
    if negb (truthy userId)
    then redirect (orElse (unauthorizedUrl config) "/login") (url req)
    else
      match getUserRole (adapter config) userId with
      | None => redirect (orElse (forbiddenUrl config) "/forbidden") (url req)
      | Some userRole =>
        if negb (truthy userRole)
        then redirect (orElse (forbiddenUrl config) "/forbidden") (url req)
        else
          let userPermissions := getRolePermissions (adapter config) userRole in
          let hasAllPermissions :=
            forallb (fun p => Permissions.includes userPermissions p) requiredPermissions in
          if negb hasAllPermissions
          then redirect (orElse (forbiddenUrl config) "/forbidden") (url req)
          else next
      end
  end.

End Middleware.

(** ** react/RoleGate.tsx, react/PermissionGate.tsx *)

Module React.

(** What a gate renders: [<>{children}</>] or [<>{fallback}</>]. *)
Inductive Rendered :=
| children
| fallback.

Definition RoleGate (role : option Role) (roles : option (list Role))
    (userRole : option Role) : Rendered :=
  match userRole with
  | None => fallback
  | Some userRole =>
    if negb (truthy userRole) then fallback
    else if match role with
            | Some role => truthy role && negb (String.eqb userRole role)
            | None => false
            end
    then fallback
    else if match roles with
            | Some roles => negb (Permissions.includes roles userRole)
            | None => false
            end
    then fallback
    else children
  end.

Definition PermissionGate (permission : option Permission)
    (permissions : option (list Permission)) (userPermissions : list Permission)
    (requireAll : option bool) : Rendered :=
  let requireAll := default false requireAll in
  if match permission with
     | Some permission =>
       truthy permission && negb (Permissions.includes userPermissions permission)
     | None => false
     end
  then fallback
  else
    match permissions with
    | Some permissions =>
      let hasPermission :=
        if requireAll
        then forallb (fun p => Permissions.includes userPermissions p) permissions
        else existsb (fun p => Permissions.includes userPermissions p) permissions in
      if negb hasPermission then fallback else children
    | None => children
    end.

End React.

(** ** adapters/prisma.ts: the cache keys *)

Module Prisma.

(** [`role:${roleName}`], the key [findRole] caches under. *)
Definition roleKey (roleName : Role) : string := "role:" +:+ roleName.

(** [`user-role:${userId}`], the key [getUserRole] caches under. *)
Definition userRoleKey (userId : string) : string := "user-role:" +:+ userId.

End Prisma.

(** The order [sortByLength] puts routes in. *)
Definition longerFirst (a b : string) : Prop :=
  (String.length b <= String.length a)%nat.

(** Two calls gave back the same value and left the world the same: both
    ran the fetcher, or neither did. *)
Definition invokes_alike {T W : Type} (call1 call2 : Fetched T * BaseAdapter T * W)
  : Prop :=
  call1.1.1 = call2.1.1 /\ call1.2 = call2.2.

(** * Properties *)

(** ** Insertion-ordered sets *)

Lemma elem_of_Set_add acc x p : p ∈ Set_add acc x <-> p ∈ acc \/ p = x.
Proof.
  unfold Set_add. case_bool_decide as Hin.
  - split; [auto | intros [?| ->]; done].
  - rewrite elem_of_app, list_elem_of_singleton. done.
Qed.

Lemma elem_of_foldl_Set_add l : forall acc p,
  p ∈ foldl Set_add acc l <-> p ∈ acc \/ p ∈ l.
Proof.
  induction l as [|x l IH]; intros acc p; simpl.
  - rewrite elem_of_nil. tauto.
  - rewrite IH, elem_of_Set_add, elem_of_cons. tauto.
Qed.

Lemma NoDup_Set_add acc x : NoDup acc -> NoDup (Set_add acc x).
Proof.
  intros Hnd. unfold Set_add. case_bool_decide as Hin; [done|].
  apply NoDup_app. split_and!; [done | | apply NoDup_singleton].
  intros y Hy Hy'. apply list_elem_of_singleton in Hy'. by subst.
Qed.

Lemma NoDup_foldl_Set_add l : forall acc, NoDup acc -> NoDup (foldl Set_add acc l).
Proof.
  induction l as [|x l IH]; intros acc Hnd; simpl; [done|].
  by apply IH, NoDup_Set_add.
Qed.

Lemma elem_of_foldl_addRole adapter path : forall acc p,
  p ∈ foldl (addRole adapter) acc path <->
  p ∈ acc \/ exists r, r ∈ path /\ p ∈ directPermissions adapter r.
Proof.
  induction path as [|r path IH]; intros acc p; simpl.
  - split; [auto | intros [?|(r & Hr & _)]; [done | by apply elem_of_nil in Hr]].
  - rewrite IH. unfold addRole at 1. rewrite elem_of_foldl_Set_add. split.
    + intros [[?|?]|(r' & ? & ?)]; [by left | right; exists r | right; exists r'];
        rewrite elem_of_cons; auto.
    + intros [?|(r' & Hr' & ?)]; [by do 2 left|].
      apply elem_of_cons in Hr' as [->|?]; [by left; right | right; eauto].
Qed.

Lemma NoDup_foldl_addRole adapter path : forall acc,
  NoDup acc -> NoDup (foldl (addRole adapter) acc path).
Proof.
  induction path as [|r path IH]; intros acc Hnd; simpl; [done|].
  by apply IH, NoDup_foldl_Set_add.
Qed.

(** ** Chains of parents *)

Section Chains.
Variable adapter : RBACAdapter.

Lemma parentOf_Some r p :
  parentOf adapter r = Some p <->
  exists doc, findRole adapter r = Some doc /\ inherits doc = Some p /\ truthy p = true.
Proof.
  unfold parentOf. split.
  - destruct (findRole adapter r) as [[nm ps [q|]]|]; try done.
    destruct (truthy q) eqn:Hq; [|done]. intros [= <-]. eauto.
  - intros (doc & -> & Hin & Ht). destruct doc as [nm ps inh]; simpl in *.
    subst inh. by rewrite Ht.
Qed.

Lemma parentOf_missing r : findRole adapter r = None -> parentOf adapter r = None.
Proof. unfold parentOf. by intros ->. Qed.

Lemma ancestor_S_r k : forall r x p,
  ancestor adapter k r = Some x -> parentOf adapter x = Some p ->
  ancestor adapter (S k) r = Some p.
Proof.
  induction k as [|k IH]; intros r x p; simpl.
  - intros [= ->] ->. done.
  - destruct (parentOf adapter r) as [q|]; [|done]. apply IH.
Qed.

Lemma ChainEnds_ancestor r n :
  ChainEnds adapter r n ->
  forall k x, ancestor adapter k r = Some x ->
    (k <= n)%nat /\ ChainEnds adapter x (n - k).
Proof.
  induction 1 as [r Hr | r p n Hp Hch IH]; intros [|k] x; simpl.
  - intros [= <-]. split; [lia | by constructor].
  - by rewrite Hr.
  - intros [= <-]. split; [lia | by econstructor].
  - rewrite Hp. intros Hk. destruct (IH _ _ Hk). split; [lia | done].
Qed.

Lemma ChainEnds_fun r n :
  ChainEnds adapter r n -> forall m, ChainEnds adapter r m -> n = m.
Proof.
  induction 1 as [r Hr | r p n Hp Hch IH]; intros m; inversion 1; subst;
    try congruence.
  f_equal. apply IH. congruence.
Qed.

Lemma elem_of_chainOf n : forall r x,
  x ∈ chainOf adapter n r ->
  exists k, (k <= n)%nat /\ ancestor adapter k r = Some x.
Proof.
  induction n as [|n IH]; intros r x; simpl.
  - rewrite list_elem_of_singleton. intros ->. by exists 0%nat.
  - rewrite elem_of_cons. intros [->|Hx]; [by exists 0%nat; split; [lia|]|].
    destruct (parentOf adapter r) as [p|] eqn:Hp; [|by apply elem_of_nil in Hx].
    destruct (IH _ _ Hx) as (k & Hk & Hanc).
    exists (S k). split; [lia|]. simpl. by rewrite Hp.
Qed.

Lemma length_chainOf r n :
  ChainEnds adapter r n -> length (chainOf adapter n r) = S n.
Proof.
  induction 1 as [r Hr | r p n Hp Hch IH]; simpl; [done|]. by rewrite Hp, IH.
Qed.

(** A chain that ends never comes back to a role it has left. *)
Lemma ChainEnds_NoDup r n :
  ChainEnds adapter r n -> NoDup (chainOf adapter n r).
Proof.
  induction 1 as [r Hr | r p n Hp Hch IH]; simpl.
  - apply NoDup_singleton.
  - rewrite Hp. constructor; [|done].
    intros Hin. apply elem_of_chainOf in Hin as (k & Hk & Hanc).
    assert (ancestor adapter (S k) r = Some r) as Hloop by (simpl; by rewrite Hp).
    assert (ChainEnds adapter r (S n)) as Hend by (by econstructor).
    destruct (ChainEnds_ancestor _ _ Hend _ _ Hloop) as [_ Hend'].
    pose proof (ChainEnds_fun _ _ Hend _ Hend'). lia.
Qed.

End Chains.

(** ** One step of each traversal, in terms of [parentOf] *)

Section Steps.
Variable adapter : RBACAdapter.
Variable limit : Z.

Lemma Resolve_traverse_S fuel st r d :
  Resolve.traverse adapter limit (S fuel) st r d =
  if d >? limit then Throw (DepthExceeded limit r)
  else if bool_decide (r ∈ Resolve.visited st) then Throw (CircularInheritance r)
  else
    let st' := {| Resolve.visited := {[ r ]} ∪ Resolve.visited st;
                  Resolve.allPermissions :=
                    addRole adapter (Resolve.allPermissions st) r |} in
    match parentOf adapter r with
    | Some p => Resolve.traverse adapter limit fuel st' p (d + 1)
    | None => Return st'
    end.
Proof.
  simpl. unfold parentOf, addRole, directPermissions.
  destruct (d >? limit); [done|]. case_bool_decide; [done|].
  destruct (findRole adapter r) as [[nm ps [q|]]|]; simpl; try done.
  by destruct (truthy q).
Qed.

Lemma Hierarchy_traverse_S fuel st r d :
  Hierarchy.traverse adapter limit (S fuel) st r d =
  if d >? limit then Throw (DepthExceeded limit r)
  else if bool_decide (r ∈ Hierarchy.visited st) then Throw (CircularInheritance r)
  else
    let st' := {| Hierarchy.visited := {[ r ]} ∪ Hierarchy.visited st;
                  Hierarchy.hierarchy := Hierarchy.hierarchy st ++ [r] |} in
    match parentOf adapter r with
    | Some p => Hierarchy.traverse adapter limit fuel st' p (d + 1)
    | None => Return st'
    end.
Proof.
  simpl. unfold parentOf.
  destruct (d >? limit); [done|]. case_bool_decide; [done|].
  destruct (findRole adapter r) as [[nm ps [q|]]|]; simpl; try done.
  by destruct (truthy q).
Qed.

Lemma Inherits_traverse_S parentRole fuel vis r d :
  Inherits.traverse adapter parentRole limit (S fuel) vis r d =
  if d >? limit then Return false
  else if bool_decide (r ∈ vis) then Return false
  else if namesParent adapter parentRole r then Return true
  else
    match parentOf adapter r with
    | Some p => Inherits.traverse adapter parentRole limit fuel ({[ r ]} ∪ vis) p (d + 1)
    | None => Return false
    end.
Proof.
  simpl. unfold parentOf, namesParent.
  destruct (d >? limit); [done|]. case_bool_decide; [done|].
  destruct (findRole adapter r) as [[nm ps [q|]]|]; simpl; try done.
  case_bool_decide; [done|]. by destruct (truthy q).
Qed.

(** The fuel the exported functions supply is never used up. *)
Lemma Hierarchy_traverse_fuel fuel : forall st r d,
  (Z.to_nat (limit + 1 - d) < fuel)%nat ->
  Hierarchy.traverse adapter limit fuel st r d <> OutOfFuel.
Proof.
  induction fuel as [|fuel IH]; intros st r d Hfuel; [lia|].
  rewrite Hierarchy_traverse_S.
  destruct (Z.gtb_spec d limit); [done|]. case_bool_decide; [done|]. simpl.
  destruct (parentOf adapter r); [|done]. apply IH. lia.
Qed.

Lemma Inherits_traverse_fuel parentRole fuel : forall vis r d,
  (Z.to_nat (limit + 1 - d) < fuel)%nat ->
  exists b, Inherits.traverse adapter parentRole limit fuel vis r d = Return b.
Proof.
  induction fuel as [|fuel IH]; intros vis r d Hfuel; [lia|].
  rewrite Inherits_traverse_S.
  destruct (Z.gtb_spec d limit); [by eexists|]. case_bool_decide; [by eexists|].
  destruct (namesParent adapter parentRole r); [by eexists|].
  destruct (parentOf adapter r); [|by eexists]. apply IH. lia.
Qed.

(** Both throwing traversals take the same path: they fail alike, and where
    [getRoleHierarchy]'s traversal appends [path], [resolveRolePermissions]'s
    adds the permissions of the roles of [path], in that order. *)
Lemma traverse_related fuel : forall vis hier perms r d,
  match Hierarchy.traverse adapter limit fuel
          {| Hierarchy.visited := vis; Hierarchy.hierarchy := hier |} r d with
  | Return sh =>
    exists path,
      Hierarchy.hierarchy sh = hier ++ path /\
      Resolve.traverse adapter limit fuel
        {| Resolve.visited := vis; Resolve.allPermissions := perms |} r d =
      Return {| Resolve.visited := Hierarchy.visited sh;
                Resolve.allPermissions := foldl (addRole adapter) perms path |}
  | Throw e =>
    Resolve.traverse adapter limit fuel
      {| Resolve.visited := vis; Resolve.allPermissions := perms |} r d = Throw e
  | OutOfFuel =>
    Resolve.traverse adapter limit fuel
      {| Resolve.visited := vis; Resolve.allPermissions := perms |} r d = OutOfFuel
  end.
Proof.
  induction fuel as [|fuel IH]; intros vis hier perms r d; [done|].
  rewrite Hierarchy_traverse_S, Resolve_traverse_S. simpl.
  destruct (d >? limit); [done|]. case_bool_decide; [done|].
  destruct (parentOf adapter r) as [p|].
  - specialize (IH ({[ r ]} ∪ vis) (hier ++ [r]) (addRole adapter perms r) p (d + 1)).
    destruct (Hierarchy.traverse _ _ _ _ _ _) as [sh| |]; [|done..].
    destruct IH as (path & Hh & Hr). exists (r :: path).
    split; [by rewrite Hh, <- app_assoc | done].
  - exists [r]. done.
Qed.

End Steps.

(** ** What the traversals do along a chain *)

Section Traversals.
Variable adapter : RBACAdapter.
Variable limit : Z.

(** A chain that ends within the limit is walked to its root. *)
Lemma Hierarchy_traverse_chain r n :
  ChainEnds adapter r n ->
  forall fuel vis hier d,
    (n < fuel)%nat -> d + Z.of_nat n <= limit ->
    (forall x, x ∈ chainOf adapter n r -> x ∉ vis) ->
    exists vis',
      Hierarchy.traverse adapter limit fuel (Hierarchy.mkState vis hier) r d =
      Return (Hierarchy.mkState vis' (hier ++ chainOf adapter n r)).
Proof.
  intros Hch. pose proof (ChainEnds_NoDup _ _ _ Hch) as Hnd. revert Hnd.
  induction Hch as [r Hr | r p n Hp Hch IH]; intros Hnd [|fuel] vis hier d Hfuel Hd Hfresh;
    try lia; rewrite Hierarchy_traverse_S; simpl in *.
  - destruct (Z.gtb_spec d limit); [lia|].
    rewrite bool_decide_eq_false_2 by (apply Hfresh; set_solver).
    rewrite Hr. eauto.
  - destruct (Z.gtb_spec d limit); [lia|].
    rewrite bool_decide_eq_false_2 by (apply Hfresh; set_solver).
    rewrite Hp in *. apply NoDup_cons in Hnd as [Hr Hnd].
    destruct (IH Hnd fuel ({[ r ]} ∪ vis) (hier ++ [r]) (d + 1)) as [vis' Hv];
      [lia | lia | |].
    + intros x Hx. apply not_elem_of_union. split; [|apply Hfresh; set_solver].
      apply not_elem_of_singleton. by intros ->.
    + exists vis'. by rewrite Hv, <- app_assoc.
Qed.

(** A chain that ends beyond the limit is abandoned with [DepthExceeded]. *)
Lemma Hierarchy_traverse_too_deep r n :
  ChainEnds adapter r n ->
  forall fuel vis hier d,
    (Z.to_nat (limit + 1 - d) < fuel)%nat -> limit < d + Z.of_nat n ->
    (forall x, x ∈ chainOf adapter n r -> x ∉ vis) ->
    exists role,
      Hierarchy.traverse adapter limit fuel (Hierarchy.mkState vis hier) r d =
      Throw (DepthExceeded limit role).
Proof.
  intros Hch. pose proof (ChainEnds_NoDup _ _ _ Hch) as Hnd. revert Hnd.
  induction Hch as [r Hr | r p n Hp Hch IH]; intros Hnd [|fuel] vis hier d Hfuel Hd Hfresh;
    try lia; rewrite Hierarchy_traverse_S; simpl in *.
  - destruct (Z.gtb_spec d limit); [eauto | lia].
  - destruct (Z.gtb_spec d limit); [eauto|].
    rewrite bool_decide_eq_false_2 by (apply Hfresh; set_solver).
    rewrite Hp in *. apply NoDup_cons in Hnd as [Hr Hnd].
    apply IH; [done | lia | lia |].
    intros x Hx. apply not_elem_of_union. split; [|apply Hfresh; set_solver].
    apply not_elem_of_singleton. by intros ->.
Qed.

(** A chain that comes back, within the limit, to a role it has visited is
    abandoned with [CircularInheritance]. *)
Lemma Hierarchy_traverse_cycle k :
  forall fuel vis hier r d y,
    (k < fuel)%nat -> d + Z.of_nat k <= limit ->
    ancestor adapter k r = Some y ->
    (y ∈ vis \/ exists i, (i < k)%nat /\ ancestor adapter i r = Some y) ->
    exists c,
      Hierarchy.traverse adapter limit fuel (Hierarchy.mkState vis hier) r d =
      Throw (CircularInheritance c).
Proof.
  induction k as [|k IH]; intros [|fuel] vis hier r d y Hfuel Hd Hy Hseen;
    try lia; rewrite Hierarchy_traverse_S; simpl in *.
  - destruct (Z.gtb_spec d limit); [lia|]. injection Hy as <-.
    destruct Hseen as [Hin|(i & Hi & _)]; [|lia].
    rewrite bool_decide_eq_true_2 by done. eauto.
  - destruct (Z.gtb_spec d limit); [lia|]. case_bool_decide; [eauto|].
    destruct (parentOf adapter r) as [p|] eqn:Hp; [|done].
    apply (IH fuel _ _ p (d + 1) y); [lia | lia | done |].
    destruct Hseen as [Hin|(i & Hi & Hanc)]; [left; set_solver|].
    destruct i as [|i]; simpl in Hanc.
    + injection Hanc as <-. left. set_solver.
    + rewrite Hp in Hanc. right. exists i. split; [lia | done].
Qed.

(** Whatever the store, a hierarchy that is returned repeats no role and
    stays within [limit + 1] roles. *)
Lemma Hierarchy_traverse_inv fuel :
  forall vis hier r d st',
    Hierarchy.traverse adapter limit fuel (Hierarchy.mkState vis hier) r d = Return st' ->
    exists path,
      Hierarchy.hierarchy st' = hier ++ path /\
      NoDup path /\
      (forall x, x ∈ path -> x ∉ vis) /\
      d + Z.of_nat (length path) <= limit + 1.
Proof.
  induction fuel as [|fuel IH]; intros vis hier r d st'; [done|].
  rewrite Hierarchy_traverse_S. simpl.
  destruct (Z.gtb_spec d limit); [done|]. case_bool_decide as Hvis; [done|].
  destruct (parentOf adapter r) as [p|].
  - intros Htr. apply IH in Htr as (path & Hh & Hnd & Hfresh & Hlen).
    exists (r :: path). split_and!.
    + by rewrite Hh, <- app_assoc.
    + constructor; [|done]. intros Hin. apply Hfresh in Hin. set_solver.
    + intros x [->|Hx]%elem_of_cons; [done|]. apply Hfresh in Hx. set_solver.
    + simpl length. lia.
  - intros [= <-]. exists [r]. simpl. split_and!; [done | apply NoDup_singleton | | lia].
    by intros x ->%list_elem_of_singleton.
Qed.

(** [DepthExceeded] is thrown when [k] more distinct roles can be entered
    and the last of them has a parent ... *)
Lemma Hierarchy_traverse_deep k :
  forall fuel vis hier r d,
    (S k < fuel)%nat -> d + Z.of_nat k = limit ->
    NoDup (chainOf adapter k r) ->
    (forall x, x ∈ chainOf adapter k r -> x ∉ vis) ->
    is_Some (ancestor adapter (S k) r) ->
    exists role,
      Hierarchy.traverse adapter limit fuel (Hierarchy.mkState vis hier) r d =
      Throw (DepthExceeded limit role).
Proof.
  induction k as [|k IH]; intros [|fuel] vis hier r d Hfuel Hd Hnd Hfresh [y Hy];
    try lia; rewrite Hierarchy_traverse_S; simpl in *.
  all: destruct (Z.gtb_spec d limit); [lia|].
  all: rewrite bool_decide_eq_false_2 by (apply Hfresh; set_solver).
  all: destruct (parentOf adapter r) as [p|] eqn:Hp; [|done].
  - destruct fuel as [|fuel]; [lia|]. rewrite Hierarchy_traverse_S.
    destruct (Z.gtb_spec (d + 1) limit); [eauto | lia].
  - apply NoDup_cons in Hnd as [Hr Hnd].
    apply IH; [lia | lia | done | | by exists y].
    intros x Hx. apply not_elem_of_union. split; [|apply Hfresh; set_solver].
    apply not_elem_of_singleton. by intros ->.
Qed.

(** ... and only then. *)
Lemma Hierarchy_traverse_deep_inv fuel :
  forall vis hier r d role,
    Hierarchy.traverse adapter limit fuel (Hierarchy.mkState vis hier) r d =
      Throw (DepthExceeded limit role) ->
    d <= limit ->
    exists k : nat,
      d + Z.of_nat k = limit /\
      NoDup (chainOf adapter k r) /\
      (forall x, x ∈ chainOf adapter k r -> x ∉ vis) /\
      is_Some (ancestor adapter (S k) r).
Proof.
  induction fuel as [|fuel IH]; intros vis hier r d role; [done|].
  rewrite Hierarchy_traverse_S. simpl.
  destruct (Z.gtb_spec d limit); [lia|]. case_bool_decide as Hvis; [done|].
  destruct (parentOf adapter r) as [p|] eqn:Hp; [|done].
  intros Htr Hd. destruct (decide (d = limit)) as [->|Hne].
  - exists 0%nat. cbn [ancestor chainOf]. rewrite ?Hp.
    split_and!; [lia | apply NoDup_singleton | | done].
    by intros x ->%list_elem_of_singleton.
  - apply IH in Htr as (k & Hk & Hnd & Hfresh & Hsome); [|lia].
    exists (S k). cbn [ancestor chainOf]. rewrite ?Hp. split_and!; [lia | | | done].
    + constructor; [|done]. intros Hin. apply Hfresh in Hin. set_solver.
    + intros x [->|Hx]%elem_of_cons; [done|]. apply Hfresh in Hx. set_solver.
Qed.

Variable parentRole : Role.

(** [inheritsFrom]'s traversal answers [true] only at a role, at most
    [limit] edges up, whose record names [parentRole] in [inherits]. *)
Lemma Inherits_traverse_true fuel :
  forall vis r d,
    Inherits.traverse adapter parentRole limit fuel vis r d = Return true ->
    exists k x,
      d + Z.of_nat k <= limit /\ ancestor adapter k r = Some x /\
      namesParent adapter parentRole x = true.
Proof.
  induction fuel as [|fuel IH]; intros vis r d; [done|].
  rewrite Inherits_traverse_S.
  destruct (Z.gtb_spec d limit); [done|]. case_bool_decide; [done|].
  destruct (namesParent adapter parentRole r) eqn:Hnames.
  - intros _. exists 0%nat, r. split_and!; [lia | done | done].
  - destruct (parentOf adapter r) as [p|] eqn:Hp; [|done].
    intros (k & x & Hk & Hanc & Hx)%IH. exists (S k), x.
    split_and!; [lia | by simpl; rewrite Hp | done].
Qed.

Lemma closed_ancestor (vis : gset string) k :
  (forall v q, v ∈ vis -> parentOf adapter v = Some q -> q ∈ vis) ->
  forall r x, r ∈ vis -> ancestor adapter k r = Some x -> x ∈ vis.
Proof.
  intros Hclosed. induction k as [|k IH]; intros r x Hr; simpl.
  - by intros [= <-].
  - destruct (parentOf adapter r) as [p|] eqn:Hp; [|done]. apply IH. eauto.
Qed.

(** ... and it does answer [true] there: a cycle can only close after every
    role of the chain has been tested. *)
Lemma Inherits_traverse_complete k :
  forall fuel vis r d x,
    (k < fuel)%nat -> d + Z.of_nat k <= limit ->
    ancestor adapter k r = Some x -> namesParent adapter parentRole x = true ->
    (forall v, v ∈ vis -> namesParent adapter parentRole v = false) ->
    (forall v q, v ∈ vis -> parentOf adapter v = Some q -> q ∈ vis \/ q = r) ->
    Inherits.traverse adapter parentRole limit fuel vis r d = Return true.
Proof.
  induction k as [|k IH]; intros [|fuel] vis r d x Hfuel Hd Hanc Hx Hno Hclosed;
    try lia; rewrite Inherits_traverse_S.
  all: destruct (Z.gtb_spec d limit); [lia|].
  all: case_bool_decide as Hvis.
  all: try (exfalso;
    assert (x ∈ vis) as Hxv by
      (eapply closed_ancestor; [|exact Hvis|exact Hanc];
       intros v q Hv Hq; destruct (Hclosed v q Hv Hq); by subst);
    apply Hno in Hxv; congruence).
  - simpl in Hanc. injection Hanc as <-. by rewrite Hx.
  - simpl in Hanc. destruct (namesParent adapter parentRole r) eqn:Hr; [done|].
    destruct (parentOf adapter r) as [p|] eqn:Hp; [|done].
    apply (IH fuel _ p (d + 1) x); [lia | lia | done | done | |].
    + intros v [->%elem_of_singleton|Hv]%elem_of_union; [done | by apply Hno].
    + intros v q [->%elem_of_singleton|Hv]%elem_of_union Hq.
      * right. congruence.
      * left. destruct (Hclosed v q Hv Hq); set_solver.
Qed.

End Traversals.

(** ** The exported functions *)

Lemma fuelFor_enough limit : (Z.to_nat (limit + 1 - 0) < fuelFor limit)%nat.
Proof. unfold fuelFor. rewrite Z.sub_0_r. lia. Qed.

Lemma fuelFor_chain limit (n : nat) : Z.of_nat n <= limit -> (n < fuelFor limit)%nat.
Proof. unfold fuelFor. lia. Qed.

(** [resolveRolePermissions] fails exactly as [getRoleHierarchy] does, and
    otherwise folds the direct permissions of the hierarchy, child first. *)
Lemma resolve_from_hierarchy adapter roleName options :
  match getRoleHierarchy adapter roleName options with
  | Return h =>
    resolveRolePermissions adapter roleName options =
    Return (foldl (addRole adapter) [] h)
  | Throw e => resolveRolePermissions adapter roleName options = Throw e
  | OutOfFuel => resolveRolePermissions adapter roleName options = OutOfFuel
  end.
Proof.
  unfold getRoleHierarchy, resolveRolePermissions.
  pose proof (traverse_related adapter (maxDepthOf options)
                (fuelFor (maxDepthOf options)) ∅ [] [] roleName 0) as Hrel.
  destruct (Hierarchy.traverse _ _ _ _ _ _) as [sh|e|].
  - destruct Hrel as (path & Hh & ->). simpl in *. by subst.
  - by rewrite Hrel.
  - by rewrite Hrel.
Qed.

Lemma getRoleHierarchy_chain adapter roleName options n :
  ChainEnds adapter roleName n ->
  Z.of_nat n <= maxDepthOf options ->
  getRoleHierarchy adapter roleName options = Return (chainOf adapter n roleName).
Proof.
  intros Hch Hn. unfold getRoleHierarchy.
  destruct (Hierarchy_traverse_chain adapter (maxDepthOf options) _ _ Hch
              (fuelFor (maxDepthOf options)) ∅ [] 0) as [vis' ->];
    [by apply fuelFor_chain | lia | set_solver | done].
Qed.

Lemma getRoleHierarchy_too_deep adapter roleName options n :
  ChainEnds adapter roleName n ->
  maxDepthOf options < Z.of_nat n ->
  exists role,
    getRoleHierarchy adapter roleName options =
    Throw (DepthExceeded (maxDepthOf options) role).
Proof.
  intros Hch Hn. unfold getRoleHierarchy.
  destruct (Hierarchy_traverse_too_deep adapter (maxDepthOf options) _ _ Hch
              (fuelFor (maxDepthOf options)) ∅ [] 0) as [role ->];
    [apply fuelFor_enough | lia | set_solver | eauto].
Qed.

Lemma getRoleHierarchy_total adapter roleName options :
  getRoleHierarchy adapter roleName options <> OutOfFuel.
Proof.
  unfold getRoleHierarchy.
  pose proof (Hierarchy_traverse_fuel adapter (maxDepthOf options)
                (fuelFor (maxDepthOf options))
                (Hierarchy.mkState ∅ []) roleName 0 (fuelFor_enough _)).
  by destruct (Hierarchy.traverse _ _ _ _ _ _).
Qed.

Lemma resolveRolePermissions_total adapter roleName options :
  resolveRolePermissions adapter roleName options <> OutOfFuel.
Proof.
  pose proof (resolve_from_hierarchy adapter roleName options) as Hres.
  pose proof (getRoleHierarchy_total adapter roleName options).
  destruct (getRoleHierarchy adapter roleName options); [by rewrite Hres.. | done].
Qed.

Lemma getRoleHierarchy_DepthExceeded adapter roleName options :
  (exists role, getRoleHierarchy adapter roleName options =
                Throw (DepthExceeded (maxDepthOf options) role)) <->
  needsMoreThan adapter (maxDepthOf options) roleName.
Proof.
  unfold getRoleHierarchy, needsMoreThan.
  set (limit := maxDepthOf options). split.
  - intros [role Hrole]. destruct (decide (limit < 0)) as [?|Hpos]; [by left|right].
    destruct (Hierarchy.traverse _ _ _ _ _ _) as [sh|e|] eqn:Htr; [done| |done].
    injection Hrole as ->.
    apply Hierarchy_traverse_deep_inv in Htr as (k & Hk & Hnd & _ & Hsome); [|lia].
    by replace (Z.to_nat limit) with k by lia.
  - intros [Hneg|[Hnd Hsome]].
    + exists roleName. unfold fuelFor. simpl.
      by destruct (Z.gtb_spec 0 limit); [|lia].
    + destruct (decide (limit < 0)) as [Hneg|Hpos].
      { exists roleName. unfold fuelFor. simpl.
        by destruct (Z.gtb_spec 0 limit); [|lia]. }
      destruct (Hierarchy_traverse_deep adapter limit (Z.to_nat limit)
                  (fuelFor limit) ∅ [] roleName 0) as [role ->];
        [unfold fuelFor; lia | lia | done | set_solver | done | eauto].
Qed.

(** [inheritsFrom] always answers, and answers [true] exactly when a role of
    the chain, at most [maxDepth] edges up, names [parentRole]. *)
Lemma inheritsFrom_spec adapter roleName parentRole options :
  exists b,
    inheritsFrom adapter roleName parentRole options = Return b /\
    (b = true <-> namedWithin adapter (maxDepthOf options) parentRole roleName).
Proof.
  unfold inheritsFrom, namedWithin.
  destruct (Inherits_traverse_fuel adapter (maxDepthOf options) parentRole
              (fuelFor (maxDepthOf options)) ∅ roleName 0 (fuelFor_enough _))
    as [b Hb].
  exists b. split; [done|]. split.
  - intros ->. apply Inherits_traverse_true in Hb as (k & x & ? & ? & ?).
    exists k, x. split_and!; [lia | done | done].
  - intros (k & x & Hk & Hanc & Hx).
    assert (Inherits.traverse adapter parentRole (maxDepthOf options)
              (fuelFor (maxDepthOf options)) ∅ roleName 0 = Return true) as Htrue.
    { eapply Inherits_traverse_complete;
        [by apply fuelFor_chain | lia | done | done | set_solver | set_solver]. }
    congruence.
Qed.

(** Discharges [ChainEnds] on a concrete store by walking it. *)
Ltac walk_chain :=
  repeat first
    [ apply ChainEnds_root; vm_compute; reflexivity
    | eapply ChainEnds_step; [vm_compute; reflexivity|] ].

(** ** Claims about the inheritance resolver *)

(** C1: when the ancestor chain of [roleName] ends after at most [maxDepth]
    edges (such a chain is acyclic, see [ChainEnds_NoDup]),
    [resolveRolePermissions] and [getRoleHierarchy] both return, and a
    permission is in the resolved list exactly when it is a direct permission
    of some role of the returned hierarchy, a role without record
    contributing none. *)
Theorem resolveRolePermissions_union_of_hierarchy adapter roleName options n :
  ChainEnds adapter roleName n ->
  Z.of_nat n <= maxDepthOf options ->
  exists ps h,
    resolveRolePermissions adapter roleName options = Return ps /\
    getRoleHierarchy adapter roleName options = Return h /\
    forall p, p ∈ ps <-> exists r, r ∈ h /\ p ∈ directPermissions adapter r.
Proof.
  intros Hch Hn.
  pose proof (resolve_from_hierarchy adapter roleName options) as Hres.
  rewrite (getRoleHierarchy_chain _ _ _ _ Hch Hn) in *.
  eexists _, _. split_and!; [exact Hres | done |].
  intros p. rewrite elem_of_foldl_addRole, elem_of_nil. tauto.
Qed.

Lemma resolveRolePermissions_union_of_hierarchy_witness :
  exists ps h,
    resolveRolePermissions (mockAdapter roles) "super-admin" noOptions = Return ps /\
    getRoleHierarchy (mockAdapter roles) "super-admin" noOptions = Return h /\
    forall p, p ∈ ps <->
      exists r, r ∈ h /\ p ∈ directPermissions (mockAdapter roles) r.
Proof.
  apply (resolveRolePermissions_union_of_hierarchy
           (mockAdapter roles) "super-admin" noOptions 3);
    [walk_chain | by vm_compute].
Defined.

(** C2: when the parent chain of [roleName] comes back, after [j <= maxDepth]
    edges, to a role it has already passed (after [i < j] edges), both
    [resolveRolePermissions] and [getRoleHierarchy] throw
    [CircularInheritance] and return nothing. Mutual parents are the case
    [i = 0], [j = 2]; a role naming itself as parent is [i = 0], [j = 1]. *)
Theorem circular_inheritance_is_rejected adapter roleName options i j x :
  (i < j)%nat ->
  Z.of_nat j <= maxDepthOf options ->
  ancestor adapter i roleName = Some x ->
  ancestor adapter j roleName = Some x ->
  exists c,
    resolveRolePermissions adapter roleName options = Throw (CircularInheritance c) /\
    getRoleHierarchy adapter roleName options = Throw (CircularInheritance c).
Proof.
  intros Hij Hj Hi Hjx.
  pose proof (resolve_from_hierarchy adapter roleName options) as Hres.
  assert (exists c, getRoleHierarchy adapter roleName options =
                    Throw (CircularInheritance c)) as [c Hc].
  { unfold getRoleHierarchy.
    destruct (Hierarchy_traverse_cycle adapter (maxDepthOf options) j
                (fuelFor (maxDepthOf options)) ∅ [] roleName 0 x) as [c ->];
      [by apply fuelFor_chain | lia | done | right; eauto | eauto]. }
  rewrite Hc in *. eauto.
Qed.

Lemma circular_inheritance_is_rejected_witness :
  exists c,
    resolveRolePermissions (mockAdapter circularRoles) "role-a" noOptions =
      Throw (CircularInheritance c) /\
    getRoleHierarchy (mockAdapter circularRoles) "role-a" noOptions =
      Throw (CircularInheritance c).
Proof.
  apply (circular_inheritance_is_rejected
           (mockAdapter circularRoles) "role-a" noOptions 0 2 "role-a");
    [lia | by vm_compute | reflexivity | by vm_compute].
Defined.

(** C3 (amended): [inheritsFrom] never throws and always answers. It answers
    [true] exactly when some role at most [maxDepth] edges up the chain
    names [parentRole], so it answers [false] when [roleName] has no record
    and when the walk runs into a cycle without having met such a role. Two
    mutual parents are not such a case: [B] is the direct parent of [A], and
    [inheritsFrom(adapter, A, B)] is [true]. *)
Theorem inheritsFrom_never_throws :
  (forall adapter roleName parentRole options,
     exists b,
       inheritsFrom adapter roleName parentRole options = Return b /\
       (b = true <-> namedWithin adapter (maxDepthOf options) parentRole roleName)) /\
  (forall adapter roleName parentRole options,
     findRole adapter roleName = None ->
     inheritsFrom adapter roleName parentRole options = Return false) /\
  (forall adapter A B docA docB options,
     0 <= maxDepthOf options ->
     findRole adapter A = Some docA -> inherits docA = Some B ->
     findRole adapter B = Some docB -> inherits docB = Some A ->
     inheritsFrom adapter A B options = Return true).
Proof.
  split_and!.
  - apply inheritsFrom_spec.
  - intros adapter roleName parentRole options Hmissing.
    destruct (inheritsFrom_spec adapter roleName parentRole options) as ([|] & -> & Hb);
      [|done].
    destruct (proj1 Hb eq_refl) as ([|k] & x & _ & Hanc & Hx); simpl in Hanc.
    + injection Hanc as <-. unfold namesParent in Hx. by rewrite Hmissing in Hx.
    + by rewrite (parentOf_missing _ _ Hmissing) in Hanc.
  - intros adapter A B docA docB options Hdepth HA HAB _ _.
    destruct (inheritsFrom_spec adapter A B options) as (b & -> & Hb).
    f_equal. apply Hb. exists 0%nat, A. split_and!; [lia | done |].
    unfold namesParent. rewrite HA. by apply bool_decide_eq_true_2.
Qed.

(** On the mutually inheriting [role-a] and [role-b] of the test suite the
    answer is [true]: [role-b] is what [role-a] names in [inherits]. *)
Lemma inheritsFrom_mutual_parents_counterexample :
  (findRole (mockAdapter circularRoles) "role-a" ≫= inherits) = Some "role-b" /\
  (findRole (mockAdapter circularRoles) "role-b" ≫= inherits) = Some "role-a" /\
  inheritsFrom (mockAdapter circularRoles) "role-a" "role-b" noOptions = Return true /\
  inheritsFrom (mockAdapter circularRoles) "role-a" "role-b" noOptions <> Return false.
Proof. split_and!; by vm_compute. Qed.

(** C4 (amended): [inheritsFrom(adapter, r, r)] always answers, and answers
    [false] exactly when no role at most [maxDepth] edges up the chain of [r]
    ([r] included) names [r] in its [inherits] field: so for every [r] whose
    chain does not lead back to [r]. A role that names itself as parent, or
    that lies on a cycle closing within [maxDepth] edges, gets [true]. *)
Theorem inheritsFrom_self adapter r options :
  exists b,
    inheritsFrom adapter r r options = Return b /\
    (b = false <-> ~ namedWithin adapter (maxDepthOf options) r r).
Proof.
  destruct (inheritsFrom_spec adapter r r options) as (b & Hb & Hiff).
  exists b. split; [done|]. rewrite <- Hiff. by destruct b.
Qed.

(** A role that names itself as parent, and a role on a two-role cycle,
    inherit from themselves. *)
Lemma inheritsFrom_self_counterexample :
  (findRole (mockAdapter selfParentRoles) "loop" ≫= inherits) = Some "loop" /\
  inheritsFrom (mockAdapter selfParentRoles) "loop" "loop" noOptions = Return true /\
  inheritsFrom (mockAdapter selfParentRoles) "loop" "loop" noOptions <> Return false /\
  inheritsFrom (mockAdapter circularRoles) "role-a" "role-a" noOptions <> Return false.
Proof. split_and!; by vm_compute. Qed.

(** C5: depth counts edges and the starting role is at depth 0.
    [resolveRolePermissions] throws [DepthExceeded] exactly when the
    traversal needs more than [maxDepth] edges ([needsMoreThan]); on a chain
    of [n] edges ([n + 1] roles) it returns when [n <= maxDepth] and throws
    [DepthExceeded] when [maxDepth < n]. The chain
    of 11 roles resolves under the default [maxDepth = 10]; the chain of 15
    roles, resolved from [level-14], throws under [maxDepth = 5] and under
    [maxDepth = 20] returns the 15 permissions [perm-14 .. perm-0]. *)
Theorem depth_counts_edges :
  (forall adapter roleName options,
     (exists role,
        resolveRolePermissions adapter roleName options =
        Throw (DepthExceeded (maxDepthOf options) role)) <->
     needsMoreThan adapter (maxDepthOf options) roleName) /\
  (forall adapter roleName options n,
     ChainEnds adapter roleName n ->
     (Z.of_nat n <= maxDepthOf options ->
      exists ps, resolveRolePermissions adapter roleName options = Return ps) /\
     (maxDepthOf options < Z.of_nat n ->
      exists role,
        resolveRolePermissions adapter roleName options =
        Throw (DepthExceeded (maxDepthOf options) role))) /\
  ChainEnds (mockAdapter (levelRoles 11)) (level 10) 10 /\
  resolveRolePermissions (mockAdapter (levelRoles 11)) (level 10) noOptions =
    Return (perm <$> reverse (seq 0 11)) /\
  ChainEnds (mockAdapter (levelRoles 15)) (level 14) 14 /\
  resolveRolePermissions (mockAdapter (levelRoles 15)) (level 14)
    {| maxDepth := Some 5 |} = Throw (DepthExceeded 5 (level 8)) /\
  resolveRolePermissions (mockAdapter (levelRoles 15)) (level 14)
    {| maxDepth := Some 20 |} = Return (perm <$> reverse (seq 0 15)).
Proof.
  split_and!; [| | walk_chain | by vm_compute | walk_chain | by vm_compute..].
  - intros adapter roleName options.
    rewrite <- getRoleHierarchy_DepthExceeded.
    pose proof (resolve_from_hierarchy adapter roleName options) as Hres.
    destruct (getRoleHierarchy adapter roleName options) as [h|e|];
      rewrite Hres; split; intros [role Hrole]; try done; eauto.
  - intros adapter roleName options n Hch.
    pose proof (resolve_from_hierarchy adapter roleName options) as Hres.
    split; intros Hn.
    + rewrite (getRoleHierarchy_chain _ _ _ _ Hch Hn) in Hres. eauto.
    + destruct (getRoleHierarchy_too_deep _ _ _ _ Hch Hn) as [role Hrole].
      rewrite Hrole in Hres. eauto.
Qed.

(** C6: for a role name without record, under the default options (and any
    [maxDepth >= 0]) [resolveRolePermissions] returns the empty list and
    [getRoleHierarchy] returns the role name alone; neither throws. *)
Theorem missing_role_resolves_empty adapter roleName options :
  findRole adapter roleName = None ->
  0 <= maxDepthOf options ->
  resolveRolePermissions adapter roleName options = Return [] /\
  getRoleHierarchy adapter roleName options = Return [roleName].
Proof.
  intros Hmissing Hdepth.
  assert (ChainEnds adapter roleName 0) as Hch
    by (constructor; by apply parentOf_missing).
  pose proof (resolve_from_hierarchy adapter roleName options) as Hres.
  rewrite (getRoleHierarchy_chain _ _ _ 0%nat Hch) in * by done.
  split; [|done]. rewrite Hres. simpl.
  unfold addRole, directPermissions. by rewrite Hmissing.
Qed.

Lemma missing_role_resolves_empty_witness :
  resolveRolePermissions (mockAdapter roles) "nonexistent" noOptions = Return [] /\
  getRoleHierarchy (mockAdapter roles) "nonexistent" noOptions = Return ["nonexistent"].
Proof.
  apply (missing_role_resolves_empty (mockAdapter roles) "nonexistent" noOptions);
    [reflexivity | by vm_compute].
Defined.

(** C9 (amended): a hierarchy that [getRoleHierarchy] returns holds no role
    name twice and has at most [maxDepth + 1] names: the starting role and
    one per edge. *)
Theorem hierarchy_NoDup_and_bounded adapter roleName options h :
  getRoleHierarchy adapter roleName options = Return h ->
  NoDup h /\ Z.of_nat (length h) <= maxDepthOf options + 1.
Proof.
  unfold getRoleHierarchy.
  destruct (Hierarchy.traverse _ _ _ _ _ _) as [sh| |] eqn:Htr; [|done..].
  intros [= <-].
  apply Hierarchy_traverse_inv in Htr as (path & -> & Hnd & _ & Hlen).
  simpl. split; [done | lia].
Qed.

Lemma hierarchy_NoDup_and_bounded_witness :
  NoDup ["super-admin"; "admin"; "manager"; "user"] /\
  Z.of_nat (length ["super-admin"; "admin"; "manager"; "user"]) <=
    maxDepthOf noOptions + 1.
Proof.
  apply (hierarchy_NoDup_and_bounded (mockAdapter roles) "super-admin" noOptions).
  by vm_compute.
Defined.

(** Under [maxDepth = 3] the four-role chain of the test suite is returned
    whole: four names, one more than [maxDepth]. *)
Lemma hierarchy_length_counterexample :
  getRoleHierarchy (mockAdapter roles) "super-admin" {| maxDepth := Some 3 |} =
    Return ["super-admin"; "admin"; "manager"; "user"] /\
  ~ (Z.of_nat (length ["super-admin"; "admin"; "manager"; "user"]) <= 3).
Proof. split; [by vm_compute | simpl; lia]. Qed.

(** C10: when the record of [R] names a parent [G] (a non-empty string, as
    the traversal tests it) and [G] has no record, [getRoleHierarchy] under
    the default options (and any [maxDepth >= 1]) returns [[R; G]]: [G] is
    appended before it is looked up, and is the last element. *)
Theorem hierarchy_keeps_unrecorded_parent adapter R G doc options :
  findRole adapter R = Some doc ->
  inherits doc = Some G ->
  truthy G = true ->
  findRole adapter G = None ->
  1 <= maxDepthOf options ->
  exists h,
    getRoleHierarchy adapter R options = Return h /\
    h = [R; G] /\ last h = Some G.
Proof.
  intros HR HG Htruthy Hmissing Hdepth.
  assert (parentOf adapter R = Some G) as Hp by (apply parentOf_Some; eauto).
  assert (ChainEnds adapter R 1) as Hch.
  { econstructor; [done|]. constructor. by apply parentOf_missing. }
  exists [R; G]. split_and!; [|done..].
  rewrite (getRoleHierarchy_chain _ _ _ 1%nat Hch) by done.
  simpl. by rewrite Hp.
Qed.

Lemma hierarchy_keeps_unrecorded_parent_witness :
  exists h,
    getRoleHierarchy
      (mockAdapter (list_to_map [role "orphan" ["perm"] (Some "ghost")]))
      "orphan" noOptions = Return h /\
    h = ["orphan"; "ghost"] /\ last h = Some "ghost".
Proof.
  apply (hierarchy_keeps_unrecorded_parent
           (mockAdapter (list_to_map [role "orphan" ["perm"] (Some "ghost")]))
           "orphan" "ghost" (role "orphan" ["perm"] (Some "ghost")).2 noOptions);
    [reflexivity | reflexivity | reflexivity | reflexivity | by vm_compute].
Defined.

(** ** Claims about the authorization facade *)

(** C8 (amended): with an empty permission list [hasAnyPermission] is
    [false] for every subject, and [hasAllPermissions] is [true] for a
    subject that has a role (a non-empty role name) and [false] for a subject
    without one: the missing-role guard comes before the quantifier. *)
Theorem empty_permission_list adapter userId :
  Permissions.hasAnyPermission userId [] adapter = false /\
  Permissions.hasAllPermissions userId [] adapter =
    match getUserRole adapter userId with
    | Some role => truthy role
    | None => false
    end.
Proof.
  unfold Permissions.hasAnyPermission, Permissions.hasAllPermissions.
  destruct (getUserRole adapter userId) as [role|]; [|done].
  by destruct (truthy role).
Qed.

(** A subject without role has not all of the permissions of the empty list. *)
Lemma hasAllPermissions_without_role_counterexample :
  getUserRole (mockAdapter roles) "user123" = None /\
  Permissions.hasAllPermissions "user123" [] (mockAdapter roles) = false /\
  Permissions.hasAllPermissions "user123" [] (mockAdapter roles) <> true.
Proof. split_and!; by vm_compute. Qed.

(** ** Claims about the adapter cache *)

Section CacheProperties.
Context {T W : Type}.
Variable Date_now : W -> Z.

Lemma withCache_miss (self : BaseAdapter T) entries key fetcher w :
  cache self = Some entries ->
  (forall cached, entries !! key = Some cached -> expires cached <= Date_now w) ->
  withCache Date_now self key fetcher w =
  let '(r, w') := fetcher w in
  match r with
  | Rejected e => (Rejected e, self, w')
  | Resolved d =>
    (Resolved d,
     {| cache := Some (<[ key := {| data := d;
                                    expires := Date_now w' +
                                               ttlOf (cacheConfig self) * 1000 |} ]>
                         entries);
        cacheConfig := cacheConfig self |},
     w')
  end.
Proof.
  intros Hcache Hmiss. unfold withCache. rewrite Hcache.
  destruct (entries !! key) as [cached|] eqn:Hkey; [|done].
  specialize (Hmiss _ eq_refl). by destruct (Z.gtb_spec (expires cached) (Date_now w)); [lia|].
Qed.

Lemma withCache_hit (self : BaseAdapter T) entries key cached fetcher w :
  cache self = Some entries ->
  entries !! key = Some cached ->
  Date_now w < expires cached ->
  withCache Date_now self key fetcher w = (Resolved (data cached), self, w).
Proof.
  intros Hcache Hkey Hfresh. unfold withCache. rewrite Hcache, Hkey.
  by destruct (Z.gtb_spec (expires cached) (Date_now w)); [|lia].
Qed.

Lemma withCache_miss_invokes (self : BaseAdapter T) entries key fetcher w :
  cache self = Some entries ->
  (forall cached, entries !! key = Some cached -> expires cached <= Date_now w) ->
  invokes (withCache Date_now self key fetcher w) fetcher w.
Proof.
  intros Hcache Hmiss. rewrite (withCache_miss _ _ _ _ _ Hcache Hmiss).
  unfold invokes. by destruct (fetcher w) as [[d|e] w'].
Qed.

(** C7: on an adapter with caching enabled, a call that finds nothing
    unexpired under [key] runs the fetcher and stores its value with expiry
    [write time + ttl * 1000]. A second call strictly before that expiry
    returns the stored value and does not run its fetcher, so the two calls
    ran a fetcher once. A second call at or after the expiry runs its
    fetcher, and so does one after [clearCache(key)] or [clearCache()]: a
    stored value is not returned once its expiry has passed. *)
Theorem withCache_fetches_once_within_ttl
    (self : BaseAdapter T) entries key fetcher1 w1 d w1' :
  cache self = Some entries ->
  (forall cached, entries !! key = Some cached -> expires cached <= Date_now w1) ->
  fetcher1 w1 = (Resolved d, w1') ->
  exists self1,
    withCache Date_now self key fetcher1 w1 = (Resolved d, self1, w1') /\
    forall fetcher2 w2,
      (Date_now w2 < Date_now w1' + ttlOf (cacheConfig self) * 1000 ->
       withCache Date_now self1 key fetcher2 w2 = (Resolved d, self1, w2)) /\
      (Date_now w1' + ttlOf (cacheConfig self) * 1000 <= Date_now w2 ->
       invokes (withCache Date_now self1 key fetcher2 w2) fetcher2 w2) /\
      invokes (withCache Date_now (clearCache (Some key) self1) key fetcher2 w2)
        fetcher2 w2 /\
      invokes (withCache Date_now (clearCache None self1) key fetcher2 w2)
        fetcher2 w2.
Proof.
  intros Hcache Hmiss Hfetch.
  rewrite (withCache_miss _ _ _ _ _ Hcache Hmiss), Hfetch.
  eexists. split; [reflexivity|]. intros fetcher2 w2. split_and!.
  - intros Hfresh.
    eapply (withCache_hit _ _ key
              (mkCacheEntry d (Date_now w1' + ttlOf (cacheConfig self) * 1000)));
      [reflexivity | apply lookup_insert_eq | done].
  - intros Hstale. eapply withCache_miss_invokes; [reflexivity|].
    intros cached. rewrite lookup_insert_eq. by intros [= <-].
  - destruct key as [|a k]; simpl; (eapply withCache_miss_invokes; [reflexivity|]).
    + intros cached. by rewrite lookup_empty.
    + intros cached. by rewrite lookup_delete_eq.
  - simpl. eapply withCache_miss_invokes; [reflexivity|].
    intros cached. by rewrite lookup_empty.
Qed.

End CacheProperties.

(** In the counting world: the first call at 1000 ms fetches (counter 1,
    clock 1005) and stores expiry 301005 under the default ttl of 300 s. *)
Lemma withCache_fetches_once_within_ttl_witness :
  exists self1,
    withCache clockOf (newBaseAdapter string {| enabled := Some true; ttl := None |})
      "role:admin" (countingFetcher "admin-doc" 5) (1000, 0%nat) =
      (Resolved "admin-doc", self1, (1005, 1%nat)) /\
    forall fetcher2 w2,
      (clockOf w2 < 1005 + 300 * 1000 ->
       withCache clockOf self1 "role:admin" fetcher2 w2 =
       (Resolved "admin-doc", self1, w2)) /\
      (1005 + 300 * 1000 <= clockOf w2 ->
       invokes (withCache clockOf self1 "role:admin" fetcher2 w2) fetcher2 w2) /\
      invokes (withCache clockOf (clearCache (Some "role:admin") self1)
                 "role:admin" fetcher2 w2) fetcher2 w2 /\
      invokes (withCache clockOf (clearCache None self1) "role:admin" fetcher2 w2)
        fetcher2 w2.
Proof.
  apply (withCache_fetches_once_within_ttl clockOf
           (newBaseAdapter string {| enabled := Some true; ttl := None |})
           ∅ "role:admin" (countingFetcher "admin-doc" 5) (1000, 0%nat)
           "admin-doc" (1005, 1%nat));
    [reflexivity | intros cached; by rewrite lookup_empty | reflexivity].
Defined.

(** The counter of the world across three calls: a miss, a hit within the
    60 s window, and a call at the expiry itself. *)
Example withCache_counts_fetches :
  let a0 := newBaseAdapter string {| enabled := Some true; ttl := Some 60 |} in
  let '(r1, a1, w1) :=
    withCache clockOf a0 "user-role:7" (countingFetcher "admin" 5) (1000, 0%nat) in
  let '(r2, a2, w2) :=
    withCache clockOf a1 "user-role:7" (countingFetcher "manager" 5) (61004, w1.2) in
  let '(r3, a3, w3) :=
    withCache clockOf a2 "user-role:7" (countingFetcher "manager" 5) (61005, w2.2) in
  (r1, w1.2, r2, w2.2, r3, w3.2) =
  (Resolved "admin", 1%nat, Resolved "admin", 1%nat, Resolved "manager", 2%nat).
Proof. by vm_compute. Qed.

(** ** The rest of server/permissions.ts *)

Lemma forallb_pointwise {A} (f g : A -> bool) l :
  (forall x, f x = g x) -> forallb f l = forallb g l.
Proof. intros Hfg. induction l as [|x l IH]; simpl; [done|]. by rewrite Hfg, IH. Qed.

Lemma existsb_pointwise {A} (f g : A -> bool) l :
  (forall x, f x = g x) -> existsb f l = existsb g l.
Proof. intros Hfg. induction l as [|x l IH]; simpl; [done|]. by rewrite Hfg, IH. Qed.

Section Facade.
Variable adapter : RBACAdapter.
Variable userId : string.

Lemma hasPermission_role r :
  getUserRole adapter userId = Some r -> truthy r = true ->
  forall p,
    Permissions.hasPermission userId p adapter =
    Permissions.includes (getRolePermissions adapter r) p.
Proof.
  intros Hr Ht p. unfold Permissions.hasPermission, Permissions.getRolePermissions.
  by rewrite Hr, Ht.
Qed.

Lemma hasPermission_no_role p :
  (forall r, getUserRole adapter userId = Some r -> truthy r = false) ->
  Permissions.hasPermission userId p adapter = false.
Proof.
  intros Hno. unfold Permissions.hasPermission.
  destruct (getUserRole adapter userId) as [r|]; [|done]. by rewrite (Hno r).
Qed.

(** X1: for a non-empty list, [hasAllPermissions] is [hasPermission] asked
    for every permission of the list. *)
Theorem hasAllPermissions_forall permissions :
  permissions <> [] ->
  Permissions.hasAllPermissions userId permissions adapter =
  forallb (fun p => Permissions.hasPermission userId p adapter) permissions.
Proof.
  intros Hne. unfold Permissions.hasAllPermissions.
  destruct (getUserRole adapter userId) as [r|] eqn:Hr.
  - destruct (truthy r) eqn:Ht; simpl.
    + apply forallb_pointwise. intros p. by rewrite (hasPermission_role r).
    + destruct permissions as [|p ps]; [done|]. simpl.
      rewrite hasPermission_no_role; [done|]. congruence.
  - destruct permissions as [|p ps]; [done|]. simpl.
    rewrite hasPermission_no_role; [done|]. congruence.
Qed.

(** X2: [hasAnyPermission] is [hasPermission] asked for some permission of
    the list, whatever the list. *)
Theorem hasAnyPermission_exists permissions :
  Permissions.hasAnyPermission userId permissions adapter =
  existsb (fun p => Permissions.hasPermission userId p adapter) permissions.
Proof.
  unfold Permissions.hasAnyPermission.
  destruct (getUserRole adapter userId) as [r|] eqn:Hr.
  - destruct (truthy r) eqn:Ht; simpl.
    + apply existsb_pointwise. intros p. by rewrite (hasPermission_role r).
    + induction permissions as [|p ps IH]; [done|]. simpl.
      rewrite hasPermission_no_role; [done|]. congruence.
  - induction permissions as [|p ps IH]; [done|]. simpl.
    rewrite hasPermission_no_role; [done|]. congruence.
Qed.

(** X3: [hasAnyRole] is [hasRole] asked for some non-empty role of the list:
    an empty role name, which [hasRole] can confirm, never counts. *)
Theorem hasAnyRole_exists roles :
  Permissions.hasAnyRole userId roles adapter =
  existsb (fun r => truthy r && Permissions.hasRole userId r adapter) roles.
Proof.
  unfold Permissions.hasAnyRole, Permissions.hasRole, Permissions.includes.
  destruct (getUserRole adapter userId) as [u|] eqn:Hu.
  - induction roles as [|r rs IH]; [by destruct (truthy u)|].
    cbn [existsb]. rewrite <- IH. clear IH.
    destruct (decide (u = r)) as [<-|Hne].
    + rewrite (bool_decide_eq_true_2 (Some u = Some u)) by done.
      rewrite (bool_decide_eq_true_2 (u ∈ u :: rs)) by (by left).
      by destruct (truthy u).
    + rewrite (bool_decide_eq_false_2 (Some u = Some r)) by congruence.
      rewrite andb_false_r. cbn [orb]. destruct (truthy u); [|done].
      apply bool_decide_ext. rewrite elem_of_cons. split; [by intros [?|?] | auto].
  - induction roles as [|r rs IH]; [done|].
    cbn [existsb]. rewrite <- IH.
    rewrite (bool_decide_eq_false_2 (None = Some r)) by done.
    by rewrite andb_false_r.
Qed.

(** X4: [requireAllPermissions] on a non-empty list resolves exactly when
    [requirePermission] resolves for every permission of the list; when it
    rejects, the message names the whole list, joined by [", "]. *)
Theorem requireAllPermissions_each permissions :
  permissions <> [] ->
  (Permissions.requireAllPermissions userId permissions adapter = Permissions.Granted <->
   forall p, p ∈ permissions ->
     Permissions.requirePermission userId p adapter = Permissions.Granted) /\
  (Permissions.requireAllPermissions userId permissions adapter <> Permissions.Granted ->
   Permissions.requireAllPermissions userId permissions adapter =
   Permissions.Denied ("Permission denied: requires all of " +:+
                       String.concat ", " permissions)).
Proof.
  intros Hne. unfold Permissions.requireAllPermissions, Permissions.requirePermission.
  rewrite (hasAllPermissions_forall _ Hne). split.
  - destruct (forallb _ permissions) eqn:Hall; simpl.
    + split; [|done]. intros _ p Hp.
      rewrite forallb_forall in Hall. rewrite Hall; [done|]. by apply list_elem_of_In.
    + split; [done|]. intros Hall'. exfalso.
      assert (forallb (fun p => Permissions.hasPermission userId p adapter)
                permissions = true); [|congruence].
      apply forallb_forall. intros p Hp%list_elem_of_In.
      specialize (Hall' p Hp).
      by destruct (Permissions.hasPermission userId p adapter).
  - by destruct (forallb _ permissions).
Qed.

(** X5: [requireAnyPermission] resolves exactly when [requirePermission]
    resolves for some permission of the list; on the empty list it rejects
    for every subject. *)
Theorem requireAnyPermission_some permissions :
  Permissions.requireAnyPermission userId permissions adapter = Permissions.Granted <->
  exists p, p ∈ permissions /\
    Permissions.requirePermission userId p adapter = Permissions.Granted.
Proof.
  unfold Permissions.requireAnyPermission, Permissions.requirePermission.
  rewrite hasAnyPermission_exists.
  destruct (existsb _ permissions) eqn:Hany; simpl.
  - split; [|done]. intros _. apply existsb_exists in Hany as (p & Hp & Hhas).
    exists p. split; [by apply list_elem_of_In | by rewrite Hhas].
  - split; [done|]. intros (p & Hp & Hreq). exfalso.
    assert (existsb (fun p => Permissions.hasPermission userId p adapter)
              permissions = true); [|congruence].
    apply existsb_exists. exists p. split; [by apply list_elem_of_In|].
    by destruct (Permissions.hasPermission userId p adapter).
Qed.

End Facade.

Lemma hasAllPermissions_forall_witness :
  Permissions.hasAllPermissions "2" ["users.read"; "users.delete"]
    (Memory.adapter testMemory) =
  forallb (fun p => Permissions.hasPermission "2" p (Memory.adapter testMemory))
          ["users.read"; "users.delete"].
Proof. apply hasAllPermissions_forall. done. Defined.

Lemma requireAllPermissions_each_witness :
  (Permissions.requireAllPermissions "2" ["users.read"; "users.delete"]
     (Memory.adapter testMemory) = Permissions.Granted <->
   forall p, p ∈ ["users.read"; "users.delete"] ->
     Permissions.requirePermission "2" p (Memory.adapter testMemory) =
     Permissions.Granted) /\
  (Permissions.requireAllPermissions "2" ["users.read"; "users.delete"]
     (Memory.adapter testMemory) <> Permissions.Granted ->
   Permissions.requireAllPermissions "2" ["users.read"; "users.delete"]
     (Memory.adapter testMemory) =
   Permissions.Denied ("Permission denied: requires all of " +:+
                       String.concat ", " ["users.read"; "users.delete"])).
Proof. apply requireAllPermissions_each. done. Defined.

(** ** The rest of adapters/base.ts *)

Section CacheEdges.
Context {T W : Type}.
Variable Date_now : W -> Z.

(** X6: an adapter constructed without [enabled: true] has no cache: every
    [withCache] call runs its fetcher and hands back its result, the adapter
    is left as it was, and [clearCache] changes nothing. *)
Theorem withCache_disabled config key (fetcher : W -> Fetched T * W) w k :
  enabled config <> Some true ->
  withCache Date_now (newBaseAdapter T config) key fetcher w =
    ((fetcher w).1, newBaseAdapter T config, (fetcher w).2) /\
  clearCache k (newBaseAdapter T config) = newBaseAdapter T config.
Proof.
  intros Hoff. unfold withCache, clearCache, newBaseAdapter. simpl.
  destruct (enabled config) as [[|]|]; [done| |]; by destruct (fetcher w).
Qed.

(** X7: a fetch that rejects is not cached. When the call does not find an
    unexpired entry and the fetcher rejects, the rejection is handed on and
    the adapter, cache included, is unchanged. *)
Theorem withCache_rejected_not_cached (self : BaseAdapter T) key fetcher w e w' :
  (forall entries cached,
     cache self = Some entries -> entries !! key = Some cached ->
     expires cached <= Date_now w) ->
  fetcher w = (Rejected e, w') ->
  withCache Date_now self key fetcher w = (Rejected e, self, w').
Proof.
  intros Hmiss Hfetch. destruct (cache self) as [entries|] eqn:Hcache.
  - rewrite (withCache_miss Date_now self entries); [by rewrite Hfetch | done |].
    intros cached. by apply Hmiss.
  - unfold withCache. by rewrite Hcache, Hfetch.
Qed.

(** What a call gives back and how it leaves the world depend on the entry
    under its own key only. *)
Lemma withCache_same_entry (self self' : BaseAdapter T) entries entries' key fetcher w :
  cache self = Some entries -> cache self' = Some entries' ->
  entries !! key = entries' !! key ->
  (withCache Date_now self key fetcher w).1.1 =
    (withCache Date_now self' key fetcher w).1.1 /\
  (withCache Date_now self key fetcher w).2 =
    (withCache Date_now self' key fetcher w).2.
Proof.
  intros Hc Hc' Hkey. unfold withCache. rewrite Hc, Hc', Hkey.
  destruct (entries' !! key) as [cached|].
  - destruct (expires cached >? Date_now w); [done|].
    by destruct (fetcher w) as [[d|e] w'].
  - by destruct (fetcher w) as [[d|e] w'].
Qed.

(** X8: keys do not interfere. After any [withCache] call under [key], a call
    under another key gives back the same value, and runs or does not run its
    fetcher, exactly as it would have before. *)
Theorem withCache_other_key (self : BaseAdapter T) entries key fetcher1 w1
    key' fetcher w :
  cache self = Some entries ->
  key' <> key ->
  (withCache Date_now (withCache Date_now self key fetcher1 w1).1.2 key' fetcher w).1.1 =
    (withCache Date_now self key' fetcher w).1.1 /\
  (withCache Date_now (withCache Date_now self key fetcher1 w1).1.2 key' fetcher w).2 =
    (withCache Date_now self key' fetcher w).2.
Proof.
  intros Hcache Hne.
  assert (exists entries1,
    cache (withCache Date_now self key fetcher1 w1).1.2 = Some entries1 /\
    entries1 !! key' = entries !! key') as (entries1 & Hc1 & Hk).
  { unfold withCache. rewrite Hcache.
    destruct (entries !! key) as [cached|];
      [destruct (expires cached >? Date_now w1); [by exists entries|]|];
      destruct (fetcher1 w1) as [[d|e] w1']; simpl;
      solve [ by exists entries
            | eexists; split; [reflexivity | by rewrite lookup_insert_ne] ]. }
  by apply (withCache_same_entry _ _ entries1 entries).
Qed.


(** X10: [clearCache] with the empty string as key takes the branch of the
    missing key and empties the whole cache: afterwards a call under any key
    runs its fetcher. *)
Theorem clearCache_empty_key_clears_all (self : BaseAdapter T) entries key fetcher w :
  cache self = Some entries ->
  invokes (withCache Date_now (clearCache (Some EmptyString) self) key fetcher w)
    fetcher w.
Proof.
  intros Hcache. eapply withCache_miss_invokes.
  - unfold clearCache. by rewrite Hcache.
  - intros cached. by rewrite lookup_empty.
Qed.

(** X11: a configured [ttl] of [0] does not switch caching off: it is read as
    the default, and the stored value is served for 300 seconds. *)
Theorem withCache_ttl_zero (self : BaseAdapter T) entries key fetcher1 w1 d w1' :
  cache self = Some entries ->
  ttl (cacheConfig self) = Some 0 ->
  (forall cached, entries !! key = Some cached -> expires cached <= Date_now w1) ->
  fetcher1 w1 = (Resolved d, w1') ->
  forall fetcher2 w2,
    Date_now w2 < Date_now w1' + 300000 ->
    withCache Date_now (withCache Date_now self key fetcher1 w1).1.2 key fetcher2 w2 =
    (Resolved d, (withCache Date_now self key fetcher1 w1).1.2, w2).
Proof.
  intros Hcache Httl Hmiss Hfetch fetcher2 w2 Hfresh.
  rewrite (withCache_miss Date_now self entries key fetcher1 w1 Hcache Hmiss), Hfetch.
  simpl. eapply (withCache_hit Date_now _ _ key (mkCacheEntry d _));
    [reflexivity | apply lookup_insert_eq |].
  simpl. unfold ttlOf. rewrite Httl. simpl. lia.
Qed.

End CacheEdges.

Lemma withCache_disabled_witness :
  withCache clockOf (newBaseAdapter string {| enabled := None; ttl := Some 60 |})
    "role:admin" (countingFetcher "admin-doc" 5) (1000, 0%nat) =
    ((countingFetcher "admin-doc" 5 (1000, 0%nat)).1,
     newBaseAdapter string {| enabled := None; ttl := Some 60 |},
     (countingFetcher "admin-doc" 5 (1000, 0%nat)).2) /\
  clearCache (Some "role:admin")
    (newBaseAdapter string {| enabled := None; ttl := Some 60 |}) =
  newBaseAdapter string {| enabled := None; ttl := Some 60 |}.
Proof. apply withCache_disabled. done. Defined.

Lemma withCache_rejected_not_cached_witness :
  withCache clockOf (newBaseAdapter string {| enabled := Some true; ttl := None |})
    "role:admin" (fun w => (Rejected "connection lost", (w.1 + 5, S w.2)))
    (1000, 0%nat) =
  (Rejected "connection lost",
   newBaseAdapter string {| enabled := Some true; ttl := None |}, (1005, 1%nat)).
Proof.
  apply (withCache_rejected_not_cached clockOf);
    [intros entries cached [= <-]; by rewrite lookup_empty | reflexivity].
Defined.

Lemma withCache_other_key_witness :
  (withCache clockOf
     (withCache clockOf (newBaseAdapter string {| enabled := Some true; ttl := None |})
        "role:admin" (countingFetcher "admin-doc" 5) (1000, 0%nat)).1.2
     "role:user" (countingFetcher "user-doc" 5) (2000, 1%nat)).1.1 =
  (withCache clockOf (newBaseAdapter string {| enabled := Some true; ttl := None |})
     "role:user" (countingFetcher "user-doc" 5) (2000, 1%nat)).1.1 /\
  (withCache clockOf
     (withCache clockOf (newBaseAdapter string {| enabled := Some true; ttl := None |})
        "role:admin" (countingFetcher "admin-doc" 5) (1000, 0%nat)).1.2
     "role:user" (countingFetcher "user-doc" 5) (2000, 1%nat)).2 =
  (withCache clockOf (newBaseAdapter string {| enabled := Some true; ttl := None |})
     "role:user" (countingFetcher "user-doc" 5) (2000, 1%nat)).2.
Proof. apply (withCache_other_key clockOf _ ∅); [reflexivity | done]. Defined.


Lemma clearCache_empty_key_clears_all_witness :
  invokes
    (withCache clockOf
       (clearCache (Some EmptyString)
          (withCache clockOf
             (newBaseAdapter string {| enabled := Some true; ttl := None |})
             "role:admin" (countingFetcher "admin-doc" 5) (1000, 0%nat)).1.2)
       "role:admin" (countingFetcher "admin-doc" 5) (2000, 1%nat))
    (countingFetcher "admin-doc" 5) (2000, 1%nat).
Proof.
  eapply (clearCache_empty_key_clears_all clockOf). reflexivity.
Defined.

Lemma withCache_ttl_zero_witness :
  withCache clockOf
    (withCache clockOf (newBaseAdapter string {| enabled := Some true; ttl := Some 0 |})
       "role:admin" (countingFetcher "admin-doc" 5) (1000, 0%nat)).1.2
    "role:admin" (countingFetcher "other-doc" 5) (301004, 1%nat) =
  (Resolved "admin-doc",
   (withCache clockOf (newBaseAdapter string {| enabled := Some true; ttl := Some 0 |})
      "role:admin" (countingFetcher "admin-doc" 5) (1000, 0%nat)).1.2,
   (301004, 1%nat)).
Proof.
  apply (withCache_ttl_zero clockOf _ ∅ _ _ _ "admin-doc" (1005, 1%nat));
    [reflexivity | reflexivity | intros cached; by rewrite lookup_empty
    | reflexivity | by vm_compute].
Defined.

(** ** adapters/memory.ts *)

Section MemoryAdapter.
Variable self : Memory.InMemoryAdapter.

(** X12: [setRole] then read: the role just set has exactly the permissions
    given (an earlier role of that name is replaced), every other role reads
    as before, and users are untouched. *)
Theorem setRole_then_read now name permissions roleName userId :
  Memory.getRolePermissions (Memory.setRole now name permissions self) roleName =
    (if decide (name = roleName) then permissions
     else Memory.getRolePermissions self roleName) /\
  Memory.findRole (Memory.setRole now name permissions self) roleName =
    (if decide (name = roleName) then Some (mkRoleDocument name permissions None)
     else Memory.findRole self roleName) /\
  Memory.getUserRole (Memory.setRole now name permissions self) userId =
    Memory.getUserRole self userId.
Proof.
  unfold Memory.getRolePermissions, Memory.findRole, Memory.setRole. simpl.
  rewrite lookup_insert. repeat case_decide; try congruence; by split_and!.
Qed.

(** X13: [deleteRole] then read: the role is gone ([findRole] gives null,
    [getRolePermissions] the empty list), every other role reads as before,
    and deleting a role that is not stored changes nothing. *)
Theorem deleteRole_then_read name roleName :
  Memory.findRole (Memory.deleteRole name self) name = None /\
  Memory.getRolePermissions (Memory.deleteRole name self) name = [] /\
  (roleName <> name ->
   Memory.findRole (Memory.deleteRole name self) roleName = Memory.findRole self roleName /\
   Memory.getRolePermissions (Memory.deleteRole name self) roleName =
     Memory.getRolePermissions self roleName) /\
  (Memory.findRole self name = None -> Memory.deleteRole name self = self).
Proof.
  unfold Memory.getRolePermissions, Memory.findRole, Memory.deleteRole. simpl.
  rewrite lookup_delete_eq. split_and!; [reflexivity | reflexivity | |].
  - intros Hne. by rewrite lookup_delete_ne.
  - intros Hnone. destruct self as [rs us]. simpl in *. f_equal.
    apply delete_id. by apply fmap_None in Hnone.
Qed.

(** X14: [setUser] and [deleteUser] then read: the user just set has the
    role given, a deleted user has none, other users read as before. *)
Theorem setUser_deleteUser_then_read id role userId :
  Memory.getUserRole (Memory.setUser id role self) userId =
    (if decide (id = userId) then Some role else Memory.getUserRole self userId) /\
  Memory.getUserRole (Memory.deleteUser id self) userId =
    (if decide (id = userId) then None else Memory.getUserRole self userId).
Proof.
  unfold Memory.getUserRole, Memory.setUser, Memory.deleteUser. simpl.
  rewrite lookup_insert, lookup_delete. repeat case_decide; try congruence; by split_and!.
Qed.

(** The stored documents never name a parent. *)
Lemma Memory_parentOf r : parentOf (Memory.adapter self) r = None.
Proof.
  unfold parentOf, Memory.adapter, Memory.findRole. simpl.
  by destruct (Memory.roles self !! r).
Qed.

(** X15: the in-memory adapter cannot express inheritance. Whatever it
    stores, [getRoleHierarchy] is the role alone, [resolveRolePermissions] is
    the role's own permissions without duplicates, and [inheritsFrom] is
    [false] (for [maxDepth >= 0], the default included). *)
Theorem Memory_has_no_inheritance roleName parentRole options :
  0 <= maxDepthOf options ->
  getRoleHierarchy (Memory.adapter self) roleName options = Return [roleName] /\
  resolveRolePermissions (Memory.adapter self) roleName options =
    Return (foldl Set_add [] (Memory.getRolePermissions self roleName)) /\
  inheritsFrom (Memory.adapter self) roleName parentRole options = Return false.
Proof.
  intros Hdepth.
  assert (ChainEnds (Memory.adapter self) roleName 0) as Hch
    by (constructor; apply Memory_parentOf).
  pose proof (resolve_from_hierarchy (Memory.adapter self) roleName options) as Hres.
  rewrite (getRoleHierarchy_chain _ _ _ 0%nat Hch) in * by done.
  split_and!; [done | |].
  - rewrite Hres. simpl. unfold addRole, directPermissions, Memory.getRolePermissions.
    simpl. unfold Memory.findRole. by destruct (Memory.roles self !! roleName).
  - destruct (inheritsFrom_spec (Memory.adapter self) roleName parentRole options)
      as ([|] & -> & Hb); [|done].
    destruct (proj1 Hb eq_refl) as (k & x & _ & Hanc & Hx).
    unfold namesParent in Hx. simpl in Hx. unfold Memory.findRole in Hx.
    by destruct (Memory.roles self !! x); simpl in Hx.
Qed.

(** X16: the server functions over the in-memory adapter. Once a user is
    given a non-empty role and that role is given permissions, [hasPermission]
    holds exactly for these permissions and [hasRole] for this role; once the
    user is deleted, no permission and no role is confirmed. *)
Theorem Memory_hasPermission now id role permissions p r :
  truthy role = true ->
  Permissions.hasPermission id p
    (Memory.adapter (Memory.setRole now role permissions (Memory.setUser id role self))) =
    bool_decide (p ∈ permissions) /\
  Permissions.hasRole id r
    (Memory.adapter (Memory.setRole now role permissions (Memory.setUser id role self))) =
    bool_decide (role = r) /\
  Permissions.hasPermission id p (Memory.adapter (Memory.deleteUser id self)) = false /\
  Permissions.hasRole id r (Memory.adapter (Memory.deleteUser id self)) = false.
Proof.
  intros Ht.
  unfold Permissions.hasPermission, Permissions.hasRole, Permissions.getRolePermissions,
    Permissions.includes. simpl.
  unfold Memory.getUserRole, Memory.getRolePermissions. simpl.
  rewrite !lookup_insert_eq, lookup_delete_eq. simpl. rewrite Ht. simpl.
  split_and!; [done | | done | done].
  apply bool_decide_ext. split; [by intros [= ->] | by intros ->].
Qed.

End MemoryAdapter.

(** The last entry of a list of pairs under a key. *)
Lemma foldl_insert_lookup {A B} (f : string -> A -> B) (l : list (string * A)) :
  forall (m : gmap string B) key,
    foldl (fun m r => <[ r.1 := f r.1 r.2 ]> m) m l !! key =
    match last (filter (fun r => r.1 = key) l) with
    | Some r => Some (f r.1 r.2)
    | None => m !! key
    end.
Proof.
  induction l as [|r l IH]; intros m key; simpl; [done|].
  rewrite IH, filter_cons. case_decide as Hr.
  - rewrite last_cons. destruct (last _); [done|].
    subst key. by rewrite lookup_insert_eq.
  - destruct (last _); [done|]. by rewrite lookup_insert_ne.
Qed.

(** X17: the constructor stores the roles of the configuration in order, by
    name: when a name is given twice the last entry wins, and a name the
    configuration does not give has no permissions. *)
Theorem Memory_new_last_wins now config_roles config_users roleName :
  Memory.getRolePermissions
    (Memory.new now {| Memory.config_roles := Some config_roles;
                       Memory.config_users := config_users |}) roleName =
  match last (filter (fun r => r.1 = roleName) config_roles) with
  | Some r => r.2
  | None => []
  end.
Proof.
  unfold Memory.getRolePermissions, Memory.new. simpl.
  rewrite (foldl_insert_lookup (Memory.stored now)).
  by destruct (last _).
Qed.

Lemma Memory_has_no_inheritance_witness :
  getRoleHierarchy (Memory.adapter testMemory) "admin" noOptions = Return ["admin"] /\
  resolveRolePermissions (Memory.adapter testMemory) "admin" noOptions =
    Return (foldl Set_add [] (Memory.getRolePermissions testMemory "admin")) /\
  inheritsFrom (Memory.adapter testMemory) "admin" "user" noOptions = Return false.
Proof. apply Memory_has_no_inheritance. by vm_compute. Defined.

Lemma Memory_hasPermission_witness :
  Permissions.hasPermission "3" "reports.read"
    (Memory.adapter (Memory.setRole 0 "manager" ["reports.read"]
                       (Memory.setUser "3" "manager" testMemory))) =
    bool_decide ("reports.read" ∈ ["reports.read"]) /\
  Permissions.hasRole "3" "manager"
    (Memory.adapter (Memory.setRole 0 "manager" ["reports.read"]
                       (Memory.setUser "3" "manager" testMemory))) =
    bool_decide ("manager" = "manager") /\
  Permissions.hasPermission "3" "reports.read"
    (Memory.adapter (Memory.deleteUser "3" testMemory)) = false /\
  Permissions.hasRole "3" "manager"
    (Memory.adapter (Memory.deleteUser "3" testMemory)) = false.
Proof. apply Memory_hasPermission. reflexivity. Defined.

(** ** adapters/mongodb.ts *)

Lemma Set_add_foldl acc acc' x :
  foldl Set_add acc (Set_add acc' x) = Set_add (foldl Set_add acc acc') x.
Proof.
  destruct (decide (x ∈ acc')) as [Hin|Hin].
  - assert (Set_add acc' x = acc') as ->
      by (unfold Set_add; by rewrite bool_decide_eq_true_2).
    unfold Set_add. rewrite bool_decide_eq_true_2; [done|].
    apply elem_of_foldl_Set_add. by right.
  - assert (Set_add acc' x = acc' ++ [x]) as ->
      by (unfold Set_add; by rewrite bool_decide_eq_false_2).
    by rewrite foldl_app.
Qed.

(** Adding a list that was itself built by adding is adding its source. *)
Lemma foldl_Set_add_foldl l : forall acc acc',
  foldl Set_add acc (foldl Set_add acc' l) =
  foldl Set_add (foldl Set_add acc acc') l.
Proof.
  induction l as [|x l IH]; intros acc acc'; simpl; [done|].
  by rewrite IH, Set_add_foldl.
Qed.

Lemma foldl_Set_add_addRole adapter path : forall acc acc',
  foldl Set_add acc (foldl (addRole adapter) acc' path) =
  foldl (addRole adapter) (foldl Set_add acc acc') path.
Proof.
  induction path as [|r path IH]; intros acc acc'; simpl; [done|].
  rewrite IH. unfold addRole at 2 4. by rewrite foldl_Set_add_foldl.
Qed.

Section Mongo.
Variable adapter : RBACAdapter.

Lemma MongoDB_getRolePermissions_S fuel r :
  MongoDB.getRolePermissions (findRole adapter) (S fuel) r =
  match parentOf adapter r with
  | Some p =>
    match MongoDB.getRolePermissions (findRole adapter) fuel p with
    | Return inherited => Return (foldl Set_add (addRole adapter [] r) inherited)
    | Throw e => Throw e
    | OutOfFuel => OutOfFuel
    end
  | None => Return (addRole adapter [] r)
  end.
Proof.
  simpl. unfold parentOf, addRole, directPermissions.
  destruct (findRole adapter r) as [[nm ps [q|]]|]; simpl; try done.
  by destruct (truthy q).
Qed.

Lemma MongoDB_chain r n :
  ChainEnds adapter r n ->
  forall fuel, (n < fuel)%nat ->
    MongoDB.getRolePermissions (findRole adapter) fuel r =
    Return (foldl (addRole adapter) [] (chainOf adapter n r)).
Proof.
  induction 1 as [r Hr | r p n Hp Hch IH]; intros [|fuel] Hfuel; try lia;
    rewrite MongoDB_getRolePermissions_S; simpl.
  - by rewrite Hr.
  - rewrite Hp, IH by lia. f_equal. by rewrite foldl_Set_add_addRole.
Qed.

Lemma MongoDB_returns fuel : forall r ps,
  MongoDB.getRolePermissions (findRole adapter) fuel r = Return ps ->
  exists n, ChainEnds adapter r n.
Proof.
  induction fuel as [|fuel IH]; intros r ps; [done|].
  rewrite MongoDB_getRolePermissions_S.
  destruct (parentOf adapter r) as [p|] eqn:Hp.
  - destruct (MongoDB.getRolePermissions _ fuel p) as [inh| |] eqn:Hrec; [|done..].
    intros _. destruct (IH _ _ Hrec) as [n Hn]. exists (S n). by econstructor.
  - intros _. exists 0%nat. by constructor.
Qed.

Lemma MongoDB_never_throws fuel : forall r e,
  MongoDB.getRolePermissions (findRole adapter) fuel r <> Throw e.
Proof.
  induction fuel as [|fuel IH]; intros r e; [done|].
  rewrite MongoDB_getRolePermissions_S.
  destruct (parentOf adapter r) as [p|]; [|done].
  specialize (IH p). by destruct (MongoDB.getRolePermissions _ fuel p).
Qed.

(** X18: on a chain of parents that ends, the MongoDB adapter's
    [getRolePermissions] returns the inherited permissions too, the very list
    [resolveRolePermissions] returns when the chain is within [maxDepth];
    it has no depth limit of its own, so it also returns on longer chains,
    where [resolveRolePermissions] throws [DepthExceeded]. *)
Theorem MongoDB_getRolePermissions_inherits roleName n options :
  ChainEnds adapter roleName n ->
  exists ps,
    (forall fuel, (n < fuel)%nat ->
       MongoDB.getRolePermissions (findRole adapter) fuel roleName = Return ps) /\
    (Z.of_nat n <= maxDepthOf options ->
     resolveRolePermissions adapter roleName options = Return ps) /\
    (maxDepthOf options < Z.of_nat n ->
     exists role, resolveRolePermissions adapter roleName options =
                  Throw (DepthExceeded (maxDepthOf options) role)) /\
    (forall p, p ∈ ps <->
       exists r, r ∈ chainOf adapter n roleName /\ p ∈ directPermissions adapter r).
Proof.
  intros Hch. exists (foldl (addRole adapter) [] (chainOf adapter n roleName)).
  pose proof (resolve_from_hierarchy adapter roleName options) as Hres.
  split_and!.
  - intros fuel Hfuel. by apply MongoDB_chain.
  - intros Hn. by rewrite (getRoleHierarchy_chain _ _ _ _ Hch Hn) in Hres.
  - intros Hn. destruct (getRoleHierarchy_too_deep _ _ _ _ Hch Hn) as [role Hrole].
    rewrite Hrole in Hres. eauto.
  - intros p. rewrite elem_of_foldl_addRole, elem_of_nil. tauto.
Qed.

(** X19: the MongoDB adapter's [getRolePermissions] has no cycle detection.
    Where the parent chain comes back to a role it has passed, the case in
    which [resolveRolePermissions] throws [CircularInheritance], the method
    never returns and never throws: no amount of fuel gives a result. *)
Theorem MongoDB_getRolePermissions_diverges_on_cycle roleName i j x :
  (i < j)%nat ->
  ancestor adapter i roleName = Some x ->
  ancestor adapter j roleName = Some x ->
  forall fuel,
    MongoDB.getRolePermissions (findRole adapter) fuel roleName = OutOfFuel.
Proof.
  intros Hij Hi Hj fuel.
  destruct (MongoDB.getRolePermissions _ fuel roleName) as [ps|e|] eqn:Hrun; [| |done].
  - exfalso. apply MongoDB_returns in Hrun as [n Hn].
    destruct (ChainEnds_ancestor _ _ _ Hn _ _ Hi) as [Hi' Hxi].
    destruct (ChainEnds_ancestor _ _ _ Hn _ _ Hj) as [Hj' Hxj].
    pose proof (ChainEnds_fun _ _ _ Hxi _ Hxj). lia.
  - by apply MongoDB_never_throws in Hrun.
Qed.

End Mongo.

Lemma MongoDB_getRolePermissions_inherits_witness :
  exists ps,
    (forall fuel, (3 < fuel)%nat ->
       MongoDB.getRolePermissions (findRole (mockAdapter roles)) fuel "super-admin" =
       Return ps) /\
    (Z.of_nat 3 <= maxDepthOf {| maxDepth := Some 2 |} ->
     resolveRolePermissions (mockAdapter roles) "super-admin" {| maxDepth := Some 2 |} =
     Return ps) /\
    (maxDepthOf {| maxDepth := Some 2 |} < Z.of_nat 3 ->
     exists role,
       resolveRolePermissions (mockAdapter roles) "super-admin" {| maxDepth := Some 2 |} =
       Throw (DepthExceeded (maxDepthOf {| maxDepth := Some 2 |}) role)) /\
    (forall p, p ∈ ps <->
       exists r, r ∈ chainOf (mockAdapter roles) 3 "super-admin" /\
                 p ∈ directPermissions (mockAdapter roles) r).
Proof.
  apply (MongoDB_getRolePermissions_inherits (mockAdapter roles) "super-admin" 3
           {| maxDepth := Some 2 |}).
  walk_chain.
Defined.

Lemma MongoDB_getRolePermissions_diverges_on_cycle_witness :
  MongoDB.getRolePermissions (findRole (mockAdapter circularRoles)) 1000 "role-a" =
  OutOfFuel.
Proof.
  apply (MongoDB_getRolePermissions_diverges_on_cycle
           (mockAdapter circularRoles) "role-a" 0 2 "role-a");
    [lia | reflexivity | by vm_compute].
Defined.

(** ** server/middleware.ts *)

Lemma prefix_same_length p : forall a b,
  String.prefix a p = true -> String.prefix b p = true ->
  String.length a = String.length b -> a = b.
Proof.
  induction p as [|c p IH]; intros [|x a] [|y b]; simpl; try done.
  destruct (Ascii.ascii_dec x c) as [->|]; [|done].
  destruct (Ascii.ascii_dec y c) as [->|]; [|done].
  intros Ha Hb [= Hlen]. f_equal. by apply IH.
Qed.

Lemma elem_of_insertByLength x r l :
  x ∈ Middleware.insertByLength r l <-> x = r \/ x ∈ l.
Proof.
  induction l as [|y l IH]; simpl.
  - rewrite list_elem_of_singleton, elem_of_nil. tauto.
  - destruct (_ <=? _)%nat; rewrite !elem_of_cons, ?IH; tauto.
Qed.

Lemma elem_of_sortByLength x l : x ∈ Middleware.sortByLength l <-> x ∈ l.
Proof.
  induction l as [|y l IH]; simpl; [done|].
  rewrite elem_of_insertByLength, elem_of_cons, IH. tauto.
Qed.

Lemma insertByLength_sorted r l :
  StronglySorted longerFirst l ->
  StronglySorted longerFirst (Middleware.insertByLength r l).
Proof.
  induction 1 as [|y l Hsorted IH Hall]; simpl.
  - repeat constructor.
  - destruct (Nat.leb_spec (String.length y) (String.length r)) as [Hle|Hlt].
    + constructor; [by constructor|]. constructor; [done|].
      eapply Forall_impl; [exact Hall|]. unfold longerFirst. intros z Hz. lia.
    + constructor; [done|]. apply Forall_forall.
      intros z [->|Hz]%elem_of_insertByLength.
      * unfold longerFirst. lia.
      * by eapply Forall_forall in Hall.
Qed.

Lemma sortByLength_sorted l : StronglySorted longerFirst (Middleware.sortByLength l).
Proof.
  induction l as [|y l IH]; simpl; [constructor | by apply insertByLength_sorted].
Qed.

Lemma find_first_of_sorted (P : string -> bool) l :
  StronglySorted longerFirst l ->
  forall r, find P l = Some r ->
    forall other, other ∈ l -> P other = true -> longerFirst r other.
Proof.
  induction 1 as [|y l Hsorted IH Hall]; intros r; simpl; [done|].
  destruct (P y) eqn:Hy.
  - intros [= <-] other [->|Hin]%elem_of_cons _; [unfold longerFirst; lia|].
    by eapply Forall_forall in Hall.
  - intros Hfind other [->|Hin]%elem_of_cons Hother; [congruence|]. by eapply IH.
Qed.

(** X20: the rule that applies to a path is the one with the longest key
    that is a prefix of the path; there is none exactly when no key is a
    prefix of the path. *)
Theorem findMatchingRoute_longest pathname protectedRoutes :
  match Middleware.findMatchingRoute pathname protectedRoutes with
  | Some route =>
    route ∈ protectedRoutes.*1 /\
    String.prefix route pathname = true /\
    forall other, other ∈ protectedRoutes.*1 ->
      String.prefix other pathname = true ->
      (String.length other <= String.length route)%nat
  | None =>
    forall other, other ∈ protectedRoutes.*1 -> String.prefix other pathname = false
  end.
Proof.
  unfold Middleware.findMatchingRoute.
  destruct (find _ _) as [route|] eqn:Hfind.
  - destruct (find_some _ _ Hfind) as [Hin Hpre]. split_and!; [|done|].
    + by apply elem_of_sortByLength, list_elem_of_In.
    + intros other Hother Hp.
      apply (find_first_of_sorted _ _ (sortByLength_sorted _) _ Hfind other);
        [by apply elem_of_sortByLength | done].
  - intros other Hother. apply (find_none _ _ Hfind).
    by apply list_elem_of_In, elem_of_sortByLength.
Qed.

(** X21: the rule that applies does not depend on the order in which the
    rules are written. *)
Theorem findMatchingRoute_order_independent pathname routes1 routes2 :
  routes1 ≡ₚ routes2 ->
  Middleware.findMatchingRoute pathname routes1 =
  Middleware.findMatchingRoute pathname routes2.
Proof.
  intros Hperm.
  assert (forall k, k ∈ routes1.*1 <-> k ∈ routes2.*1) as Hkeys
    by (intros k; by rewrite Hperm).
  pose proof (findMatchingRoute_longest pathname routes1) as H1.
  pose proof (findMatchingRoute_longest pathname routes2) as H2.
  destruct (Middleware.findMatchingRoute pathname routes1) as [r1|],
           (Middleware.findMatchingRoute pathname routes2) as [r2|]; [| | |done].
  - destruct H1 as (Hin1 & Hp1 & Hmax1), H2 as (Hin2 & Hp2 & Hmax2). f_equal.
    apply (prefix_same_length pathname); [done | done |].
    apply Nat.le_antisymm; [apply Hmax2 | apply Hmax1]; try done; by apply Hkeys.
  - destruct H1 as (Hin1 & Hp1 & _). apply Hkeys, H2 in Hin1. congruence.
  - destruct H2 as (Hin2 & Hp2 & _). apply Hkeys, H1 in Hin2. congruence.
Qed.

Lemma findMatchingRoute_order_independent_witness :
  Middleware.findMatchingRoute "/admin/users"
    [ ("/admin", Middleware.mkProtection None None (Some ["admin"]) None);
      ("/admin/users", Middleware.mkProtection (Some ["users.read"]) None None None) ] =
  Middleware.findMatchingRoute "/admin/users"
    [ ("/admin/users", Middleware.mkProtection (Some ["users.read"]) None None None);
      ("/admin", Middleware.mkProtection None None (Some ["admin"]) None) ].
Proof.
  apply findMatchingRoute_order_independent. apply Permutation_swap.
Defined.

Lemma lookupRoute_Some route protectedRoutes :
  route ∈ protectedRoutes.*1 ->
  is_Some (Middleware.lookupRoute route protectedRoutes).
Proof.
  induction protectedRoutes as [|[key protection] rest IH]; simpl.
  - by intros ?%elem_of_nil.
  - intros [->|Hin]%elem_of_cons.
    + by rewrite String.eqb_refl.
    + destruct (String.eqb key route); [done | by apply IH].
Qed.

(** X22: the middleware fails open. A path that no rule with a non-empty
    key is a prefix of is let through without asking who the user is; in
    particular a rule written under the empty key protects nothing. *)
Theorem createRBACMiddleware_unmatched_is_public config req protectedRoutes :
  (forall key, key ∈ protectedRoutes.*1 ->
     String.prefix key (Middleware.pathname req) = true -> key = EmptyString) ->
  Middleware.createRBACMiddleware config req protectedRoutes = Middleware.next.
Proof.
  intros Honly. unfold Middleware.createRBACMiddleware.
  destruct (match Middleware.isPublicRoute config with
            | Some isPublic => isPublic (Middleware.pathname req)
            | None => false end); [done|].
  pose proof (findMatchingRoute_longest (Middleware.pathname req) protectedRoutes) as H.
  destruct (Middleware.findMatchingRoute _ _) as [route|]; [|done].
  destruct H as (Hin & Hp & _). by rewrite (Honly _ Hin Hp).
Qed.

Lemma createRBACMiddleware_unmatched_is_public_witness :
  Middleware.createRBACMiddleware
    (Middleware.mkConfig (Memory.adapter testMemory) (fun _ => None) None None None)
    (Middleware.mkRequest "https://example.com/blog" "/blog")
    [ (EmptyString, Middleware.mkProtection None None (Some ["admin"]) None);
      ("/admin", Middleware.mkProtection None None (Some ["admin"]) None) ] =
  Middleware.next.
Proof.
  apply createRBACMiddleware_unmatched_is_public.
  intros key [->|[->|[]%elem_of_nil]%elem_of_cons]%elem_of_cons; [done|].
  by vm_compute.
Defined.

Lemma redirect_or_next (b : bool) target base (rest : Middleware.NextResponse) :
  (if b then Middleware.redirect target base else rest) = Middleware.next <->
  b = false /\ rest = Middleware.next.
Proof. destruct b; [split; [done | by intros [? _]] | by split; [|intros [_ ?]]]. Qed.

Lemma guard_passes (l : list string) (f : list string -> bool) :
  match l with [] => false | x :: rest => negb (f (x :: rest)) end = false <->
  l = [] \/ f l = true.
Proof.
  destruct l as [|x l]; [by split; [left|]|].
  destruct (f (x :: l)); simpl; split; try done; [by right | by intros [?|?]].
Qed.

Section Protect.
Variable adapter : RBACAdapter.
Variable getUserId : Middleware.NextRequest -> option string.
Variable unauthorizedUrl forbiddenUrl : string.
Variable req : Middleware.NextRequest.

(** The checks behind a matched rule, in terms of the server functions. *)
Lemma protect_next_iff protection :
  Middleware.protect adapter getUserId unauthorizedUrl forbiddenUrl req protection =
    Middleware.next <->
  exists userId,
    getUserId req = Some userId /\ truthy userId = true /\
    Permissions.hasAllPermissions userId
      (Middleware.required (Middleware.permissions protection)) adapter = true /\
    (Middleware.required (Middleware.roles protection) = [] \/
     Permissions.hasAnyRole userId
       (Middleware.required (Middleware.roles protection)) adapter = true) /\
    (Middleware.required (Middleware.anyPermissions protection) = [] \/
     Permissions.hasAnyPermission userId
       (Middleware.required (Middleware.anyPermissions protection)) adapter = true) /\
    (forall check, Middleware.custom protection = Some check ->
       check req userId adapter = true).
Proof.
  unfold Middleware.protect, Permissions.hasAllPermissions, Permissions.hasAnyRole,
    Permissions.hasAnyPermission, Permissions.getRolePermissions.
  destruct (getUserId req) as [userId|]; [|split; [done | by intros (? & ? & _)]].
  destruct (truthy userId) eqn:Hid; cbn [negb];
    [|split; [done | intros (? & [= <-] & ? & _); congruence]].
  destruct (getUserRole adapter userId) as [userRole|] eqn:Hur;
    [|split; [done | intros (? & [= <-] & _ & Hall & _); by rewrite Hur in Hall]].
  destruct (truthy userRole) eqn:Hrole; cbn [negb];
    [|split; [done | intros (? & [= <-] & _ & Hall & _);
                     by rewrite Hur, Hrole in Hall]].
  rewrite !redirect_or_next.
  pose proof (guard_passes (Middleware.required (Middleware.roles protection))
                (fun rs => Permissions.includes rs userRole)) as Hrs.
  pose proof (guard_passes (Middleware.required (Middleware.permissions protection))
                (forallb (fun p => Permissions.includes
                                      (getRolePermissions adapter userRole) p))) as Hps.
  pose proof (guard_passes (Middleware.required (Middleware.anyPermissions protection))
                (existsb (fun p => Permissions.includes
                                      (getRolePermissions adapter userRole) p))) as Hqs.
  cbn beta in Hrs. rewrite Hrs, Hps, Hqs. clear Hrs Hps Hqs.
  assert (match Middleware.custom protection with
          | Some check =>
            if negb (check req userId adapter)
            then Middleware.redirect forbiddenUrl (Middleware.url req)
            else Middleware.next
          | None => Middleware.next
          end = Middleware.next <->
          forall check, Middleware.custom protection = Some check ->
            check req userId adapter = true) as ->.
  { destruct (Middleware.custom protection) as [check|]; [|by split].
    destruct (check req userId adapter) eqn:Hcheck; simpl.
    - split; [by intros _ ? [= <-] | done].
    - split; [done|]. intros Hc. specialize (Hc _ eq_refl). congruence. }
  split.
  - intros (Hr & Hp & Hq & Hc). exists userId. rewrite Hur, Hrole. cbn [negb].
    split_and!; [done | done | | done | done | done].
    destruct Hp as [->|Hp]; [done | exact Hp].
  - intros (u & [= <-] & _ & Hp & Hr & Hq & Hc).
    rewrite Hur, Hrole in Hp, Hr, Hq. cbn [negb] in Hp, Hr, Hq.
    split_and!; [done | by right | done | done].
Qed.

End Protect.

(** X24: [createPermissionMiddleware] lets a request through exactly when
    the user is known and [hasAllPermissions] holds for the required
    permissions; with an empty list, any user that has a role passes. *)
Theorem createPermissionMiddleware_next_iff config requiredPermissions req :
  Middleware.createPermissionMiddleware config requiredPermissions req =
    Middleware.next <->
  exists userId,
    Middleware.getUserId config req = Some userId /\ truthy userId = true /\
    Permissions.hasAllPermissions userId requiredPermissions
      (Middleware.adapter config) = true.
Proof.
  unfold Middleware.createPermissionMiddleware, Permissions.hasAllPermissions,
    Permissions.getRolePermissions.
  destruct (Middleware.getUserId config req) as [userId|];
    [|split; [done | by intros (? & ? & _)]].
  destruct (truthy userId) eqn:Hid; cbn [negb];
    [|split; [done | intros (? & [= <-] & ? & _); congruence]].
  destruct (getUserRole (Middleware.adapter config) userId) as [userRole|] eqn:Hur;
    [|split; [done | intros (? & [= <-] & _ & H); by rewrite Hur in H]].
  destruct (truthy userRole) eqn:Hrole; cbn [negb];
    [|split; [done | intros (? & [= <-] & _ & H); by rewrite Hur, Hrole in H]].
  cbn zeta.
  destruct (forallb
              (fun p => Permissions.includes
                          (getRolePermissions (Middleware.adapter config) userRole) p)
              requiredPermissions) eqn:Hall; cbn [negb].
  - split; [|done]. intros _. exists userId. by rewrite Hur, Hrole.
  - split; [done|]. intros (? & [= <-] & _ & H). rewrite Hur, Hrole in H.
    cbn [negb] in H. congruence.
Qed.

(** X25: [createRoleMiddleware] lets a request through exactly when the user
    is known and [hasAnyRole] holds for the allowed roles; with an empty list
    nobody passes. *)
Theorem createRoleMiddleware_next_iff config allowedRoles req :
  Middleware.createRoleMiddleware config allowedRoles req = Middleware.next <->
  exists userId,
    Middleware.getUserId config req = Some userId /\ truthy userId = true /\
    Permissions.hasAnyRole userId allowedRoles (Middleware.adapter config) = true.
Proof.
  unfold Middleware.createRoleMiddleware, Permissions.hasAnyRole.
  destruct (Middleware.getUserId config req) as [userId|];
    [|split; [done | by intros (? & ? & _)]].
  destruct (truthy userId) eqn:Hid; cbn [negb];
    [|split; [done | intros (? & [= <-] & ? & _); congruence]].
  destruct (getUserRole (Middleware.adapter config) userId) as [userRole|] eqn:Hur;
    [|split; [done | intros (? & [= <-] & _ & H); by rewrite Hur in H]].
  destruct (truthy userRole) eqn:Hrole; cbn [negb orb];
    [|split; [done | intros (? & [= <-] & _ & H); by rewrite Hur, Hrole in H]].
  destruct (Permissions.includes allowedRoles userRole) eqn:Hinc; cbn [negb].
  - split; [|done]. intros _. exists userId. by rewrite Hur, Hrole.
  - split; [done|]. intros (? & [= <-] & _ & H). rewrite Hur, Hrole in H. congruence.
Qed.

(** X23: when a rule applies to the path of a request that is not public,
    [createRBACMiddleware] lets the request through exactly when the user is
    known and passes the server-side checks the rule asks for:
    [hasAllPermissions] for [permissions] (so a role is needed even when the
    rule lists nothing), [hasAnyRole] for a non-empty [roles],
    [hasAnyPermission] for a non-empty [anyPermissions], and [custom]. Empty
    [roles] and [anyPermissions] lists ask for nothing. *)
Theorem createRBACMiddleware_next_iff config req protectedRoutes route protection :
  (forall isPublic, Middleware.isPublicRoute config = Some isPublic ->
     isPublic (Middleware.pathname req) = false) ->
  Middleware.findMatchingRoute (Middleware.pathname req) protectedRoutes = Some route ->
  truthy route = true ->
  Middleware.lookupRoute route protectedRoutes = Some protection ->
  Middleware.createRBACMiddleware config req protectedRoutes = Middleware.next <->
  exists userId,
    Middleware.getUserId config req = Some userId /\ truthy userId = true /\
    Permissions.hasAllPermissions userId
      (Middleware.required (Middleware.permissions protection))
      (Middleware.adapter config) = true /\
    (Middleware.required (Middleware.roles protection) = [] \/
     Permissions.hasAnyRole userId
       (Middleware.required (Middleware.roles protection))
       (Middleware.adapter config) = true) /\
    (Middleware.required (Middleware.anyPermissions protection) = [] \/
     Permissions.hasAnyPermission userId
       (Middleware.required (Middleware.anyPermissions protection))
       (Middleware.adapter config) = true) /\
    (forall check, Middleware.custom protection = Some check ->
       check req userId (Middleware.adapter config) = true).
Proof.
  intros Hpublic Hmatch Hroute Hrule. unfold Middleware.createRBACMiddleware.
  rewrite Hmatch, Hroute, Hrule. cbn [negb].
  destruct (Middleware.isPublicRoute config) as [isPublic|];
    [rewrite (Hpublic _ eq_refl)|]; apply protect_next_iff.
Qed.

Lemma createRBACMiddleware_next_iff_witness :
  Middleware.createRBACMiddleware
    (Middleware.mkConfig (Memory.adapter testMemory) (fun _ => Some "2") None None None)
    (Middleware.mkRequest "https://example.com/admin/users" "/admin/users")
    [ ("/admin", (Middleware.mkProtection None None (Some ["admin"]) None)) ] =
    Middleware.next <->
  exists userId,
    Some "2" = Some userId /\ truthy userId = true /\
    Permissions.hasAllPermissions userId
      (Middleware.required (Middleware.permissions (Middleware.mkProtection None None (Some ["admin"]) None)))
      (Memory.adapter testMemory) = true /\
    (Middleware.required (Middleware.roles (Middleware.mkProtection None None (Some ["admin"]) None)) = [] \/
     Permissions.hasAnyRole userId
       (Middleware.required (Middleware.roles (Middleware.mkProtection None None (Some ["admin"]) None)))
       (Memory.adapter testMemory) = true) /\
    (Middleware.required (Middleware.anyPermissions (Middleware.mkProtection None None (Some ["admin"]) None)) = [] \/
     Permissions.hasAnyPermission userId
       (Middleware.required (Middleware.anyPermissions (Middleware.mkProtection None None (Some ["admin"]) None)))
       (Memory.adapter testMemory) = true) /\
    (forall check,
       Middleware.custom (Middleware.mkProtection None None (Some ["admin"]) None) = Some check ->
       check (Middleware.mkRequest "https://example.com/admin/users" "/admin/users") userId (Memory.adapter testMemory) = true).
Proof.
  apply (createRBACMiddleware_next_iff
           (Middleware.mkConfig (Memory.adapter testMemory) (fun _ => Some "2") None None None)
           (Middleware.mkRequest "https://example.com/admin/users" "/admin/users")
           [ ("/admin", (Middleware.mkProtection None None (Some ["admin"]) None)) ]
           "/admin" (Middleware.mkProtection None None (Some ["admin"]) None));
    [by intros isPublic [=] | reflexivity | reflexivity | reflexivity].
Defined.

(** ** react/RoleGate.tsx and react/PermissionGate.tsx *)

Section Gates.
Variable adapter : RBACAdapter.
Variable userId : string.

(** X26: a [RoleGate] fed with the user's role shows its children exactly
    when the server check would pass: [hasRole] for a non-empty [role],
    [hasAnyRole] for [roles]; an empty [roles] list shows the fallback to
    everyone, and without [role] and [roles] any user with a role sees the
    children. *)
Theorem RoleGate_agrees_with_server role roles :
  truthy role = true ->
  (React.RoleGate (Some role) None (getUserRole adapter userId) = React.children <->
   truthy role = true /\ Permissions.hasRole userId role adapter = true) /\
  (React.RoleGate None (Some roles) (getUserRole adapter userId) = React.children <->
   Permissions.hasAnyRole userId roles adapter = true) /\
  React.RoleGate None (Some []) (getUserRole adapter userId) = React.fallback /\
  (React.RoleGate None None (getUserRole adapter userId) = React.children <->
   exists r, getUserRole adapter userId = Some r /\ truthy r = true).
Proof.
  intros Hrole. unfold React.RoleGate, Permissions.hasRole, Permissions.hasAnyRole.
  rewrite Hrole. destruct (getUserRole adapter userId) as [u|]; cbn [negb andb].
  - destruct (truthy u) eqn:Hu; cbn [negb].
    + split_and!.
      * destruct (String.eqb_spec u role) as [->|Hne]; cbn [negb].
        -- rewrite bool_decide_eq_true_2 by done. by split.
        -- rewrite bool_decide_eq_false_2 by congruence.
           split; [done | by intros [_ ?]].
      * destruct (Permissions.includes roles u); cbn [negb]; by split.
      * unfold Permissions.includes.
        by rewrite bool_decide_eq_false_2 by apply not_elem_of_nil.
      * split; [intros _; eauto | done].
    + split_and!.
      * split; [done|]. intros [_ [= ->]%bool_decide_eq_true]. congruence.
      * by split.
      * done.
      * split; [done | intros (r & [= <-] & ?); congruence].
  - split_and!.
    + split; [done | by intros [_ ?%bool_decide_eq_true]].
    + by split.
    + done.
    + split; [done | by intros (r & ? & _)].
Qed.

(** X27: a [PermissionGate] fed with the permissions of the role of a user
    shows its children exactly when the server check would pass:
    [hasPermission] for a non-empty [permission], [hasAllPermissions] for
    [permissions] with [requireAll], [hasAnyPermission] for [permissions]
    without it. *)
Theorem PermissionGate_agrees_with_server userRole permission permissions :
  getUserRole adapter userId = Some userRole ->
  truthy userRole = true ->
  truthy permission = true ->
  (React.PermissionGate (Some permission) None
     (getRolePermissions adapter userRole) None = React.children <->
   Permissions.hasPermission userId permission adapter = true) /\
  (React.PermissionGate None (Some permissions)
     (getRolePermissions adapter userRole) (Some true) = React.children <->
   Permissions.hasAllPermissions userId permissions adapter = true) /\
  (React.PermissionGate None (Some permissions)
     (getRolePermissions adapter userRole) None = React.children <->
   Permissions.hasAnyPermission userId permissions adapter = true).
Proof.
  intros Hur Hrole Hperm.
  unfold React.PermissionGate, Permissions.hasPermission, Permissions.hasAllPermissions,
    Permissions.hasAnyPermission, Permissions.getRolePermissions.
  rewrite Hur, Hrole, Hperm. cbn [negb andb default].
  split_and!.
  - destruct (Permissions.includes (getRolePermissions adapter userRole) permission);
      cbn [negb]; by split.
  - destruct (forallb (fun p => Permissions.includes
                                  (getRolePermissions adapter userRole) p)
                permissions); cbn [negb]; by split.
  - destruct (existsb (fun p => Permissions.includes
                                  (getRolePermissions adapter userRole) p)
                permissions); cbn [negb]; by split.
Qed.

End Gates.

Lemma RoleGate_agrees_with_server_witness :
  (React.RoleGate (Some "admin") None (getUserRole (Memory.adapter testMemory) "1") =
     React.children <->
   truthy "admin" = true /\
   Permissions.hasRole "1" "admin" (Memory.adapter testMemory) = true) /\
  (React.RoleGate None (Some ["admin"; "manager"])
     (getUserRole (Memory.adapter testMemory) "1") = React.children <->
   Permissions.hasAnyRole "1" ["admin"; "manager"] (Memory.adapter testMemory) = true) /\
  React.RoleGate None (Some []) (getUserRole (Memory.adapter testMemory) "1") =
    React.fallback /\
  (React.RoleGate None None (getUserRole (Memory.adapter testMemory) "1") =
     React.children <->
   exists r, getUserRole (Memory.adapter testMemory) "1" = Some r /\ truthy r = true).
Proof.
  apply (RoleGate_agrees_with_server (Memory.adapter testMemory) "1" "admin").
  reflexivity.
Defined.

Lemma PermissionGate_agrees_with_server_witness :
  (React.PermissionGate (Some "users.delete") None
     (getRolePermissions (Memory.adapter testMemory) "admin") None = React.children <->
   Permissions.hasPermission "1" "users.delete" (Memory.adapter testMemory) = true) /\
  (React.PermissionGate None (Some ["users.read"; "users.delete"])
     (getRolePermissions (Memory.adapter testMemory) "admin") (Some true) =
     React.children <->
   Permissions.hasAllPermissions "1" ["users.read"; "users.delete"]
     (Memory.adapter testMemory) = true) /\
  (React.PermissionGate None (Some ["users.read"; "users.delete"])
     (getRolePermissions (Memory.adapter testMemory) "admin") None = React.children <->
   Permissions.hasAnyPermission "1" ["users.read"; "users.delete"]
     (Memory.adapter testMemory) = true).
Proof.
  apply (PermissionGate_agrees_with_server (Memory.adapter testMemory) "1" "admin");
    reflexivity.
Defined.

(** ** adapters/prisma.ts: the cache keys *)

(** X28: the cache keys of the Prisma adapter do not collide: two role
    names, or two user ids, share a key only when they are equal, and no role
    shares a key with a user. So a lookup cached for one role leaves what
    [withCache] answers for another role, and for any user, as it was. *)
Theorem Prisma_cache_keys_isolated {T W : Type} (Date_now : W -> Z)
    (self : BaseAdapter T) entries roleName other userId fetcher1 w1 fetcher w :
  cache self = Some entries ->
  other <> roleName ->
  (forall a b, Prisma.roleKey a = Prisma.roleKey b -> a = b) /\
  (forall a b, Prisma.userRoleKey a = Prisma.userRoleKey b -> a = b) /\
  (forall a b, Prisma.roleKey a <> Prisma.userRoleKey b) /\
  invokes_alike
    (withCache Date_now
       (withCache Date_now self (Prisma.roleKey roleName) fetcher1 w1).1.2
       (Prisma.roleKey other) fetcher w)
    (withCache Date_now self (Prisma.roleKey other) fetcher w) /\
  invokes_alike
    (withCache Date_now
       (withCache Date_now self (Prisma.roleKey roleName) fetcher1 w1).1.2
       (Prisma.userRoleKey userId) fetcher w)
    (withCache Date_now self (Prisma.userRoleKey userId) fetcher w).
Proof.
  intros Hcache Hne.
  assert (forall a b, Prisma.roleKey a = Prisma.roleKey b -> a = b) as Hinj
    by (intros a b Heq; injection Heq as Heq; exact Heq).
  assert (forall a b, Prisma.roleKey a <> Prisma.userRoleKey b) as Hdisj
    by (intros a b; unfold Prisma.roleKey, Prisma.userRoleKey; by simpl).
  split_and!; [done | | done | |].
  - intros a b Heq. injection Heq as Heq. exact Heq.
  - apply (withCache_other_key Date_now self entries); [done|]. intros Heq.
    by apply Hne, Hinj.
  - apply (withCache_other_key Date_now self entries); [done|]. intros Heq.
    by apply (Hdisj roleName userId).
Qed.

Lemma Prisma_cache_keys_isolated_witness :
  (forall a b, Prisma.roleKey a = Prisma.roleKey b -> a = b) /\
  (forall a b, Prisma.userRoleKey a = Prisma.userRoleKey b -> a = b) /\
  (forall a b, Prisma.roleKey a <> Prisma.userRoleKey b) /\
  invokes_alike
    (withCache clockOf
       (withCache clockOf (newBaseAdapter string {| enabled := Some true; ttl := None |})
          (Prisma.roleKey "admin") (countingFetcher "admin-doc" 5) (1000, 0%nat)).1.2
       (Prisma.roleKey "user") (countingFetcher "user-doc" 5) (2000, 1%nat))
    (withCache clockOf (newBaseAdapter string {| enabled := Some true; ttl := None |})
       (Prisma.roleKey "user") (countingFetcher "user-doc" 5) (2000, 1%nat)) /\
  invokes_alike
    (withCache clockOf
       (withCache clockOf (newBaseAdapter string {| enabled := Some true; ttl := None |})
          (Prisma.roleKey "admin") (countingFetcher "admin-doc" 5) (1000, 0%nat)).1.2
       (Prisma.userRoleKey "admin") (countingFetcher "user-doc" 5) (2000, 1%nat))
    (withCache clockOf (newBaseAdapter string {| enabled := Some true; ttl := None |})
       (Prisma.userRoleKey "admin") (countingFetcher "user-doc" 5) (2000, 1%nat)).
Proof.
  apply (Prisma_cache_keys_isolated clockOf _ ∅); [reflexivity | done].
Defined.

(** ** More on server/inheritance.ts *)

Section Hierarchies.
Variable adapter : RBACAdapter.

Lemma ancestor_in_chainOf r n :
  ChainEnds adapter r n ->
  forall k x, (k <= n)%nat -> ancestor adapter k r = Some x ->
    x ∈ chainOf adapter n r.
Proof.
  induction 1 as [r Hr | r p n Hp Hch IH]; intros [|k] x Hk; simpl; try lia.
  - intros [= <-]. by left.
  - intros [= <-]. by left.
  - rewrite Hp. intros Hanc. right. apply (IH k); [lia | done].
Qed.

Lemma ancestor_S_inv k : forall r y,
  ancestor adapter (S k) r = Some y ->
  exists x, ancestor adapter k r = Some x /\ parentOf adapter x = Some y.
Proof.
  induction k as [|k IH]; intros r y.
  - simpl. destruct (parentOf adapter r) as [p|] eqn:Hp; [|done].
    intros [= <-]. eauto.
  - change (ancestor adapter (S (S k)) r)
      with (match parentOf adapter r with
            | Some p => ancestor adapter (S k) p | None => None end).
    destruct (parentOf adapter r) as [p|] eqn:Hp; [|done].
    intros (x & Hx & Hy)%IH. exists x. split; [|done]. simpl. by rewrite Hp.
Qed.

Lemma Hierarchy_traverse_returns limit fuel :
  forall vis hier r d st',
    Hierarchy.traverse adapter limit fuel (Hierarchy.mkState vis hier) r d = Return st' ->
    exists n,
      ChainEnds adapter r n /\ d + Z.of_nat n <= limit /\
      Hierarchy.hierarchy st' = hier ++ chainOf adapter n r.
Proof.
  induction fuel as [|fuel IH]; intros vis hier r d st'; [done|].
  rewrite Hierarchy_traverse_S. simpl.
  destruct (Z.gtb_spec d limit); [done|]. case_bool_decide as Hvis; [done|].
  destruct (parentOf adapter r) as [p|] eqn:Hp.
  - intros (n & Hch & Hn & Hh)%IH. exists (S n).
    split_and!; [by econstructor | lia |].
    cbn [chainOf]. by rewrite Hp, Hh, <- app_assoc.
  - intros [= <-]. exists 0%nat. split_and!; [by constructor | lia | done].
Qed.

Lemma getRoleHierarchy_returns roleName options h :
  getRoleHierarchy adapter roleName options = Return h ->
  exists n,
    ChainEnds adapter roleName n /\ Z.of_nat n <= maxDepthOf options /\
    h = chainOf adapter n roleName.
Proof.
  unfold getRoleHierarchy.
  destruct (Hierarchy.traverse _ _ _ _ _ _) as [sh| |] eqn:Htr; [|done..].
  intros [= <-]. apply Hierarchy_traverse_returns in Htr as (n & ? & ? & ?).
  exists n. split_and!; [done | lia | done].
Qed.

(** X29: the list [resolveRolePermissions] returns holds no permission
    twice, whatever the store lists. *)
Theorem resolveRolePermissions_NoDup roleName options ps :
  resolveRolePermissions adapter roleName options = Return ps -> NoDup ps.
Proof.
  pose proof (resolve_from_hierarchy adapter roleName options) as Hres.
  destruct (getRoleHierarchy adapter roleName options) as [h|e|];
    rewrite Hres; [|done..].
  intros [= <-]. apply NoDup_foldl_addRole. constructor.
Qed.

(** X30: [inheritsFrom] agrees with [getRoleHierarchy]: when the hierarchy of
    [roleName] is returned, [roleName] inherits from a non-empty [parentRole]
    exactly when [parentRole] is in the hierarchy after its first element. *)
Theorem inheritsFrom_iff_in_hierarchy roleName parentRole options h :
  getRoleHierarchy adapter roleName options = Return h ->
  truthy parentRole = true ->
  inheritsFrom adapter roleName parentRole options =
  Return (bool_decide (parentRole ∈ tail h)).
Proof.
  intros (n & Hch & Hn & ->)%getRoleHierarchy_returns Htruthy.
  destruct (inheritsFrom_spec adapter roleName parentRole options) as (b & -> & Hb).
  f_equal. symmetry. destruct b.
  - apply bool_decide_eq_true_2.
    destruct (proj1 Hb eq_refl) as (k & x & Hk & Hanc & Hx).
    unfold namesParent in Hx.
    destruct (findRole adapter x) as [doc|] eqn:Hdoc; [|done].
    apply bool_decide_eq_true in Hx.
    assert (parentOf adapter x = Some parentRole) as Hp by (apply parentOf_Some; eauto).
    pose proof (ancestor_S_r _ _ _ _ _ Hanc Hp) as Hanc'.
    destruct (ChainEnds_ancestor _ _ _ Hch _ _ Hanc') as [Hle _].
    inversion Hch as [|r p n' Hrp Hch']; subst; [lia|].
    cbn [chainOf tail]. rewrite Hrp. simpl in Hanc'. rewrite Hrp in Hanc'.
    apply (ancestor_in_chainOf _ _ Hch' k); [lia | done].
  - apply bool_decide_eq_false_2. intros Hin.
    assert (true = true -> false = true) as Habs; [|by specialize (Habs eq_refl)].
    intros _. apply Hb.
    inversion Hch as [r Hr|r p n' Hrp Hch']; subst; cbn [chainOf tail] in Hin.
    { by apply elem_of_nil in Hin. }
    rewrite Hrp in Hin. apply elem_of_chainOf in Hin as (k & Hk & Hanc).
    assert (ancestor adapter (S k) roleName = Some parentRole) as Hanc'
      by (simpl; by rewrite Hrp).
    apply ancestor_S_inv in Hanc' as (x & Hx & Hp).
    apply parentOf_Some in Hp as (doc & Hdoc & Hin' & _).
    exists k, x. split_and!; [lia | done |].
    unfold namesParent. rewrite Hdoc. by apply bool_decide_eq_true_2.
Qed.

End Hierarchies.

Lemma resolveRolePermissions_NoDup_witness :
  NoDup ["users.read"; "users.update"; "profile.read"].
Proof.
  apply (resolveRolePermissions_NoDup
           (mockAdapter (<[ "duplicate-role" :=
                              (role "duplicate-role"
                                 ["users.read"; "users.read"; "users.update"]
                                 (Some "user")).2 ]> roles))
           "duplicate-role" noOptions).
  by vm_compute.
Defined.

Lemma inheritsFrom_iff_in_hierarchy_witness :
  inheritsFrom (mockAdapter roles) "super-admin" "user" noOptions =
  Return (bool_decide ("user" ∈ tail ["super-admin"; "admin"; "manager"; "user"])).
Proof.
  apply (inheritsFrom_iff_in_hierarchy (mockAdapter roles) "super-admin" "user" noOptions);
    [by vm_compute | reflexivity].
Defined.
